(** * spg: character-class password recipes

    A shallow embedding of the two versions of [char_gen.go]: the one whose
    [CharRecipe] stores one [CharInclusion] per character class
    (module [ByState]) and the one whose [CharRecipe] stores three [CTFlag]
    bit masks (module [ByFlag]).  Both resolve an alphabet with
    [buildCharacterList], estimate entropy with [Entropy] and draw a password
    with [Generate].

    Called by these functions but not part of the two files, and therefore
    modelled from the specification or taken as a parameter:
    [subtractString], [entropySimple], [Int31n], and the types [Token] and
    [Password].  The Go run-time enters twice: [float32(...)] rounds, and
    [make] fails when asked for more than it can allocate. *)

From Stdlib Require Import Ascii String.
From Stdlib Require Import List Bool Arith NArith ZArith Lia.
From Stdlib Require Import Permutation Eqdep_dec.
From Stdlib Require Import Reals Lra.
Import ListNotations.

Local Open Scope N_scope.

(** ** Characters and strings *)

(** The largest Unicode code point, [unicode.MaxRune]. *)
Definition MaxRune : N := 1114111.

(** One character of a Go string, as [strings.Split(s, "")] cuts it out: a
    Unicode code point. *)
Record char : Type := Char {
  code : N;
  code_ok : (code <=? MaxRune) = true
}.

(** A Go [string], seen as the sequence of its characters. *)
Definition gostring : Type := list char.

Definition char_eqb (a b : char) : bool := code a =? code b.

(** [utf8.RuneError], U+FFFD. *)
Definition RuneError : char := Char 65533 eq_refl.

(** The character with code point [n] (the replacement character when [n] is
    no code point). *)
Definition char_of_N (n : N) : char :=
  match (n <=? MaxRune) as b return ((n <=? MaxRune) = b -> char) with
  | true => fun H => Char n H
  | false => fun _ => RuneError
  end eq_refl.

(** A string literal of ASCII characters. *)
Definition lit (s : string) : gostring :=
  map (fun a => char_of_N (N_of_ascii a)) (list_ascii_of_string s).

(** [strings.Contains(s, c)] for a single character [c]. *)
Definition contains (s : gostring) (c : char) : bool :=
  existsb (char_eqb c) s.

(** [strings.Split(s, "")]: the slice of the one-character strings of [s];
    the empty slice for the empty string. *)
Definition Split (s : gostring) : list gostring :=
  map (fun c => [c]) s.

(** [strings.Join(a, "")]. *)
Definition Join (a : list gostring) : gostring := concat a.

(** Keeps the first occurrence of every character. *)
Fixpoint dedup_from (seen : gostring) (s : gostring) : gostring :=
  match s with
  | [] => []
  | c :: t =>
      if contains seen c then dedup_from seen t
      else c :: dedup_from (c :: seen) t
  end.

Definition dedup (s : gostring) : gostring := dedup_from [] s.

(** Modelled from the spec: [subtractString] is called by
    [buildCharacterList] and is not among the sources.  Section 4.2, steps 4
    and 5: the character-wise set difference [included - excluded] (every
    character present in [excluded] is removed however often it was added),
    then deduplicated so that each distinct character occurs exactly once, in
    a deterministic order (here: order of first occurrence). *)
Definition subtractString (src del : gostring) : gostring :=
  dedup (filter (fun c => negb (contains del c)) src).

(** ** Character types for Character and Separator generation *)

Definition CTUpper : gostring := lit "ABCDEFGHIJKLMNOPQRSTUVWXYZ".
Definition CTLower : gostring := lit "abcdefghijklmnopqrstuvwxyz".
Definition CTDigits : gostring := lit "0123456789".
Definition CTAmbiguous : gostring := lit "0O1Il5S".
Definition CTSymbols : gostring := lit "!#%)*+,-.:=>?@]^_}~".
(** [" \t"]: space and horizontal tab. *)
Definition CTWhiteSpace : gostring := [char_of_N 32; char_of_N 9].

(** ** Floating-point values *)

(** A [float32] or [float64] value: the real number it denotes, an
    infinity, or not-a-number.  The two zeros are not told apart. *)
Inductive float : Type := Fin (x : R) | PosInf | NegInf | NaN.

Definition log2 (x : R) : R := (ln x / ln 2)%R.

(** The binary exponent of a real other than zero: [floor (log2 |x|)]. *)
Definition binade (x : R) : Z := Zfloor (log2 (Rabs x)).

(** The integer nearest to [q], the even one of the two when [q] lies
    half-way. *)
Definition round_half_even (q : R) : Z :=
  let f := Zfloor q in
  let d := (q - IZR f)%R in
  if Rlt_dec d (1 / 2) then f
  else if Rlt_dec (1 / 2) d then (f + 1)%Z
  else if Z.even f then f else (f + 1)%Z.

(** The [float32] nearest to the real [x], IEEE 754 binary32 with rounding
    to nearest, ties to even: 24 bits of precision, so the unit in the last
    place of a number in the binade [e] is [2 ^ (e - 23)]; binades below
    [-126] share the unit of the subnormal numbers; a result of magnitude
    [2 ^ 128] or more is an infinity. *)
Definition round32 (x : R) : float :=
  if Req_dec_T x 0 then Fin 0
  else
    let e := Z.max (binade x) (-126) in
    let ulp := powerRZ 2 (e - 23) in
    let y := (IZR (round_half_even (x / ulp)) * ulp)%R in
    if Rle_dec (powerRZ 2 128) y then PosInf
    else if Rle_dec y (- powerRZ 2 128) then NegInf
    else Fin y.

(** The conversion [float32(x)] of a [float64]: finite values are rounded,
    infinities and not-a-number are kept. *)
Definition float32 (x : float) : float :=
  match x with
  | Fin r => round32 r
  | PosInf => PosInf
  | NegInf => NegInf
  | NaN => NaN
  end.

(** A value that is zero, positive or plus infinity. *)
Definition float_nonneg (x : float) : Prop :=
  match x with
  | Fin r => (0 <= r)%R
  | PosInf => True
  | NegInf => False
  | NaN => False
  end.

(** ** Passwords, tokens and results *)

(** Modelled from the spec: the declaration of [TokenType] is not among the
    sources.  Section 3: a token is tagged as an atom (a single literal
    character chosen from the alphabet); other kinds, such as word tokens, are
    reserved and never built by this generator. *)
Inductive TokenType : Type := AtomTokenType | WordTokenType.

(** Modelled from the spec: the declaration of [Token] is not among the
    sources; [Generate] builds it positionally as [Token{c, AtomTokenType}]. *)
Record Token : Type := mkToken {
  Value : gostring;
  Type_ : TokenType
}.

(** Modelled from the spec: the declaration of [Password] is not among the
    sources.  Section 3: the ordered tokens and the entropy in bits, which
    [Generate] fills with the [float32] that [Entropy] returns. *)
Record Password : Type := mkPassword {
  Tokens : list Token;
  Entropy : float
}.

(** The string a password spells: its token values in order. *)
Definition password_string (p : Password) : gostring :=
  Join (map Value (Tokens p)).

(** The errors [Generate] returns.  [InvalidLength n] stands for
    [fmt.Errorf("don't ask for passwords of length %d", n)]. *)
Inductive error : Type := InvalidLength (length : Z).

(** How a call ends: it returns a value with a nil error, it returns a
    non-nil error, or it does not return (a run-time panic). *)
Inductive outcome (A : Type) : Type :=
| Returned (a : A)
| Failed (e : error)
| Panicked.
Arguments Returned {A} a.
Arguments Failed {A} e.
Arguments Panicked {A}.

(** ** Entropy *)

(** Modelled from the spec: [entropySimple] is called by [Entropy] and is not
    among the sources.  Section 4.3, baseline formula: with [n] the size of
    the alphabet, the entropy is [length * log2(n)], a [float64].  The
    product is taken exactly, the rounding of the [float64] operations left
    out.  For an alphabet of size 0 the logarithm is minus infinity, as
    [math.Log2(0)] is, and the product follows the rules of the infinities
    ([0] times infinity is not a number); a negative size has no
    logarithm. *)
Definition entropySimple (length nelem : Z) : float :=
  if (nelem <? 0)%Z then NaN
  else if (nelem =? 0)%Z then
    if (length =? 0)%Z then NaN
    else if (0 <? length)%Z then NegInf
    else PosInf
  else Fin (IZR length * log2 (IZR nelem)).

(** ** Allocation *)

(** The largest allocation the Go run-time admits on any platform, in
    bytes ([maxAlloc] is [1 << 48] where addresses have 48 bits and less
    elsewhere). *)
Definition maxAlloc : Z := 2 ^ 48.

(** The longest [[]Token] that [make] can allocate.  It depends on the run:
    [mem] is the number of tokens the memory has room for when [make] is
    called.  Whatever the run, [make] refuses a slice of more than [maxAlloc]
    bytes; a token holds a string, which takes 16 bytes where [maxAlloc] is
    [1 << 48], so no slice of tokens has more than [maxAlloc / 16]
    elements. *)
Definition max_len (mem : Z) : Z := Z.min mem (maxAlloc / 16).

(** [make([]Token, n)] returns ([true]) for a length from 0 to [max_len];
    for any other length it does not return: the run-time panics with
    [makeslice: len out of range] or gives up for lack of memory. *)
Definition make_Tokens (mem : Z) (n : Z) : bool :=
  (0 <=? n)%Z && (n <=? max_len mem)%Z.

(** ** The random source *)

(** Modelled from the spec: [Int31n] is called by [Generate] and is not
    among the sources.  It is a parameter of the generator: a state of the
    random source and a function that, asked for a bound, either hands back an
    index and the next state or does not return ([None]). *)
Record Sampler : Type := mkSampler {
  RandState : Type;
  Int31n : N -> RandState -> option (N * RandState)
}.

(** Modelled from the spec: Section 4.4, the contract of the sampler,
    [uniformIndex(bound: positive integer) -> integer in [0, bound)]. *)
Definition sampler_contract (rnd : Sampler) : Prop :=
  forall (n : N) (s : RandState rnd), 0 < n ->
    exists i s', Int31n rnd n s = Some (i, s') /\ i < n.

(** A seedable sampler for deterministic runs: the seed is read as a number
    whose successive digits are the draws. *)
Definition seeded : Sampler :=
  {| RandState := N;
     Int31n := fun n s => if n =? 0 then None else Some (s mod n, s / n) |}.

(** The conversion [uint32(n)] of a slice length. *)
Definition uint32_of_len (n : nat) : N := N.of_nat n mod 2 ^ 32.

(** The loop of [Generate], run for [k] more iterations:
[[
	for i := 0; i < r.Length; i++ {
		c := chars[Int31n(uint32(len(chars)))]
		toks[i] = Token{c, AtomTokenType}
	}
]]
    [None] when [Int31n] does not return or the index is out of range. *)
Fixpoint draw_tokens (rnd : Sampler) (chars : list gostring) (k : nat)
    (s : RandState rnd) : option (list Token * RandState rnd) :=
  match k with
  | O => Some ([], s)
  | S k' =>
      match Int31n rnd (uint32_of_len (List.length chars)) s with
      | None => None
      | Some (i, s1) =>
          match nth_error chars (N.to_nat i) with
          | None => None
          | Some c =>
              match draw_tokens rnd chars k' s1 with
              | None => None
              | Some (toks, s2) => Some (mkToken c AtomTokenType :: toks, s2)
              end
          end
      end
  end.

(** The indices the sampler hands out in [k] successive draws with bound
    [n]. *)
Fixpoint draws (rnd : Sampler) (n : N) (k : nat) (s : RandState rnd)
    : option (list N) :=
  match k with
  | O => Some []
  | S k' =>
      match Int31n rnd n s with
      | None => None
      | Some (i, s1) =>
          match draws rnd n k' s1 with
          | None => None
          | Some l => Some (i :: l)
          end
      end
  end.

(** The result [res] of a call of [Generate] from the state [s] of the
    random source is a password of [len] atoms over [chars]: the call
    returns; the sampler made [len] draws with the size of [chars] as bound;
    the tokens are the drawn characters of [chars], each an atom, in draw
    order; the entropy is the [float32] of the one of [len] characters out
    of [chars]. *)
Definition draws_password (rnd : Sampler) (s : RandState rnd)
    (chars : list gostring) (len : Z)
    (res : outcome (Password * RandState rnd)) : Prop :=
  exists p s' idxs,
    res = Returned (p, s') /\
    draws rnd (N.of_nat (List.length chars)) (Z.to_nat len) s = Some idxs /\
    Tokens p =
      map (fun i => mkToken (nth (N.to_nat i) chars []) AtomTokenType) idxs /\
    List.length (Tokens p) = Z.to_nat len /\
    Forall (fun t => Type_ t = AtomTokenType /\ In (Value t) chars)
           (Tokens p) /\
    Entropy p = float32 (entropySimple len (Z.of_nat (List.length chars))).

(** ** char_gen.go, one inclusion state per character class *)

Module ByState.

(** [CharInclusion] holds the inclusion/exclusion value for some character
    class; it is an [int], so values other than the four constants exist. *)
Definition CharInclusion : Type := Z.

Definition CIUnstated : CharInclusion := 0%Z.
Definition CIAllow : CharInclusion := 1%Z.
Definition CIRequire : CharInclusion := 2%Z.
Definition CIExclude : CharInclusion := 3%Z.

(** [CharRecipe] are generator attributes relevant for character list
    generation.  [Length] is an [int]; the code compares it, hands it to
    [make] and counts up to it, and does no arithmetic that could wrap
    around. *)
Record CharRecipe : Type := mkCharRecipe {
  Length : Z;
  Uppers : CharInclusion;
  Lowers : CharInclusion;
  Digits : CharInclusion;
  Symbols : CharInclusion;
  Ambiguous : CharInclusion;
  ExcludeExtra : gostring;
  IncludeExtra : gostring
}.

(** The entries of the map from field names to the alphabets they
    correspond to, as the literal lists them. *)
Definition fieldNamesAlphabets : list (string * gostring) :=
  [ ("Uppers"%string, CTUpper);
    ("Lowers"%string, CTLower);
    ("Digits"%string, CTDigits);
    ("Symbols"%string, CTSymbols);
    ("Ambiguous"%string, CTAmbiguous) ].

(** [reflect.ValueOf(r).FieldByName(fname).Interface().(CharInclusion)]:
    the value of the field called [fname]; [None] (a panic) when the struct
    has no such field or the field is no [CharInclusion]. *)
Definition FieldByName (r : CharRecipe) (fname : string)
    : option CharInclusion :=
  if String.eqb fname "Uppers" then Some (Uppers r)
  else if String.eqb fname "Lowers" then Some (Lowers r)
  else if String.eqb fname "Digits" then Some (Digits r)
  else if String.eqb fname "Symbols" then Some (Symbols r)
  else if String.eqb fname "Ambiguous" then Some (Ambiguous r)
  else None.

(** The [switch] in the body of the loop of [buildCharacterList], on the
    pair [(ab, exclude)].  [CIRequire] falls through to [CIAllow]; the
    [default] case only prints a message. *)
Definition switch_inclusion (f : CharInclusion) (s : gostring)
    (acc : gostring * gostring) : gostring * gostring :=
  let '(ab, exclude) := acc in
  if (f =? CIRequire)%Z then (ab ++ s, exclude)
  else if (f =? CIAllow)%Z then (ab ++ s, exclude)
  else if (f =? CIExclude)%Z then (ab, exclude ++ s)
  else if (f =? CIUnstated)%Z then (ab, exclude)
  else (ab, exclude).

(** [for fname, s := range fieldNamesAlphabets { ... }] over the entries in
    the order [entries] the runtime yields them. *)
Fixpoint range_fields (r : CharRecipe) (entries : list (string * gostring))
    (acc : gostring * gostring) : option (gostring * gostring) :=
  match entries with
  | [] => Some acc
  | (fname, s) :: rest =>
      match FieldByName r fname with
      | None => None
      | Some f => range_fields r rest (switch_inclusion f s acc)
      end
  end.

(** [buildCharacterList] constructs the alphabet.  Go leaves the iteration
    order of a map unspecified: [order] is the order in which this call's
    [range] yields the entries of [fieldNamesAlphabets]. *)
Definition buildCharacterList (order : list (string * gostring))
    (r : CharRecipe) : option (list gostring) :=
  match range_fields r order (IncludeExtra r, ExcludeExtra r) with
  | None => None
  | Some (ab, exclude) => Some (Split (subtractString ab exclude))
  end.

(** [Entropy] returns the entropy of a character password given the
    generator attributes:
    [float32(entropySimple(r.Length, len(r.buildCharacterList())))]. *)
Definition Entropy (order : list (string * gostring)) (r : CharRecipe)
    : option float :=
  match buildCharacterList order r with
  | None => None
  | Some chars =>
      Some (float32
              (entropySimple (Length r) (Z.of_nat (List.length chars))))
  end.

(** [Generate] a password using the character generator.  [mem] is the room
    the run has for tokens; [order] and [order'] are the map iteration
    orders of its own call of [buildCharacterList] and of the one inside
    [Entropy]. *)
Definition Generate (mem : Z) (rnd : Sampler)
    (order order' : list (string * gostring))
    (r : CharRecipe) (s : RandState rnd)
    : outcome (Password * RandState rnd) :=
  if (Length r <? 1)%Z then Failed (InvalidLength (Length r))
  else
    match buildCharacterList order r with
    | None => Panicked
    | Some chars =>
        if make_Tokens mem (Length r) then
          match draw_tokens rnd chars (Z.to_nat (Length r)) s with
          | None => Panicked
          | Some (toks, s') =>
              match Entropy order' r with
              | None => Panicked
              | Some e => Returned (mkPassword toks e, s')
              end
          end
        else Panicked
    end.

(** [NewCharRecipe] creates a [CharRecipe] with reasonable defaults. *)
Definition NewCharRecipe (length : Z) : CharRecipe :=
  {| Length := length;
     Uppers := CIAllow; Lowers := CIAllow; Digits := CIAllow;
     Symbols := CIAllow; Ambiguous := CIExclude;
     ExcludeExtra := []; IncludeExtra := [] |}.

(** The recipe [r] with the class field called [fname] set to [v]. *)
Definition with_field (r : CharRecipe) (fname : string) (v : CharInclusion)
    : CharRecipe :=
  {| Length := Length r;
     Uppers := if String.eqb fname "Uppers" then v else Uppers r;
     Lowers := if String.eqb fname "Lowers" then v else Lowers r;
     Digits := if String.eqb fname "Digits" then v else Digits r;
     Symbols := if String.eqb fname "Symbols" then v else Symbols r;
     Ambiguous := if String.eqb fname "Ambiguous" then v else Ambiguous r;
     ExcludeExtra := ExcludeExtra r; IncludeExtra := IncludeExtra r |}.

(** A character that some class in state [CIAllow] or [CIRequire]
    contributes. *)
Definition allowed (r : CharRecipe) (c : char) : Prop :=
  exists fname s f, In (fname, s) fieldNamesAlphabets /\
    FieldByName r fname = Some f /\ (f = CIAllow \/ f = CIRequire) /\ In c s.

(** A character of some class in state [CIExclude]. *)
Definition excluded (r : CharRecipe) (c : char) : Prop :=
  exists fname s, In (fname, s) fieldNamesAlphabets /\
    FieldByName r fname = Some CIExclude /\ In c s.

End ByState.

(** ** char_gen.go, three masks of character type flags *)

Module ByFlag.

(** [CTFlag] is a [uint32]. *)
Definition CTFlag : Type := N.

(** Character type flags, [1 << iota]. *)
Definition Uppers : CTFlag := N.shiftl 1 0.
Definition Lowers : CTFlag := N.shiftl 1 1.
Definition Digits : CTFlag := N.shiftl 1 2.
Definition Symbols : CTFlag := N.shiftl 1 3.
Definition Ambiguous : CTFlag := N.shiftl 1 4.
Definition WhiteSpace : CTFlag := N.shiftl 1 5.
Definition Letters : CTFlag := N.lor Uppers Lowers.

(** The entries of the map [charTypeByFlag], as the literal lists them. *)
Definition charTypeByFlag : list (CTFlag * gostring) :=
  [ (Uppers, CTUpper);
    (Lowers, CTLower);
    (Digits, CTDigits);
    (Symbols, CTSymbols);
    (Ambiguous, CTAmbiguous);
    (WhiteSpace, CTWhiteSpace) ].

(** [CharRecipe] with the flags for which character types to allow, to
    require and to exclude (the field [Require] is spelled [Require_]). *)
Record CharRecipe : Type := mkCharRecipe {
  Length : Z;
  Allow : CTFlag;
  Require_ : CTFlag;
  Exclude : CTFlag;
  ExcludeExtra : gostring;
  IncludeExtra : gostring
}.

(** The test [m&f == f]. *)
Definition has (m f : CTFlag) : bool := N.land m f =? f.

(** The body of the loop of [buildCharacterList], on the pair
    [(ab, exclude)]: three independent [if]s. *)
Definition visit_flag (r : CharRecipe) (acc : gostring * gostring)
    (e : CTFlag * gostring) : gostring * gostring :=
  let '(ab, exclude) := acc in
  let '(f, ct) := e in
  let ab1 := if has (Allow r) f then ab ++ ct else ab in
  let ab2 := if has (Require_ r) f then ab1 ++ ct else ab1 in
  let exclude1 := if has (Exclude r) f then exclude ++ ct else exclude in
  (ab2, exclude1).

(** [buildCharacterList] constructs the alphabet; [order] is the order in
    which this call's [range] yields the entries of [charTypeByFlag]. *)
Definition buildCharacterList (order : list (CTFlag * gostring))
    (r : CharRecipe) : list gostring :=
  let '(ab, exclude) :=
    fold_left (visit_flag r) order (IncludeExtra r, ExcludeExtra r) in
  Split (subtractString ab exclude).

(** [Entropy] returns the entropy of a character password given the
    generator attributes:
    [float32(entropySimple(r.Length, len(r.buildCharacterList())))]. *)
Definition Entropy (order : list (CTFlag * gostring)) (r : CharRecipe)
    : float :=
  float32
    (entropySimple (Length r)
       (Z.of_nat (List.length (buildCharacterList order r)))).

(** [Generate] a password using the character generator; [mem] is the room
    the run has for tokens. *)
Definition Generate (mem : Z) (rnd : Sampler)
    (order order' : list (CTFlag * gostring))
    (r : CharRecipe) (s : RandState rnd)
    : outcome (Password * RandState rnd) :=
  if (Length r <? 1)%Z then Failed (InvalidLength (Length r))
  else
    let chars := buildCharacterList order r in
    if make_Tokens mem (Length r) then
      match draw_tokens rnd chars (Z.to_nat (Length r)) s with
      | None => Panicked
      | Some (toks, s') => Returned (mkPassword toks (Entropy order' r), s')
      end
    else Panicked.

(** [NewCharRecipe] creates a [CharRecipe] with reasonable defaults. *)
Definition NewCharRecipe (length : Z) : CharRecipe :=
  {| Length := length;
     Allow := N.lor (N.lor Letters Digits) Symbols;
     Require_ := 0;
     Exclude := Ambiguous;
     ExcludeExtra := []; IncludeExtra := [] |}.

(** The recipe [r] with the class flagged [f] moved from [Require] to
    [Allow]. *)
Definition require_to_allow (r : CharRecipe) (f : CTFlag) : CharRecipe :=
  {| Length := Length r;
     Allow := N.lor (Allow r) f;
     Require_ := N.ldiff (Require_ r) f;
     Exclude := Exclude r;
     ExcludeExtra := ExcludeExtra r; IncludeExtra := IncludeExtra r |}.

(** A character that some class flagged in [Allow] or [Require]
    contributes. *)
Definition allowed (r : CharRecipe) (c : char) : Prop :=
  exists f ct, In (f, ct) charTypeByFlag /\
    (has (Allow r) f = true \/ has (Require_ r) f = true) /\ In c ct.

(** A character of some class flagged in [Exclude]. *)
Definition excluded (r : CharRecipe) (c : char) : Prop :=
  exists f ct, In (f, ct) charTypeByFlag /\
    has (Exclude r) f = true /\ In c ct.

End ByFlag.

(** ** The two encodings side by side *)

(** The masks of [r2] say about the class flagged [f] what the state [ci]
    says. *)
Definition class_matches (ci : ByState.CharInclusion) (f : ByFlag.CTFlag)
    (r2 : ByFlag.CharRecipe) : Prop :=
  ByFlag.has (ByFlag.Allow r2) f = (ci =? ByState.CIAllow)%Z /\
  ByFlag.has (ByFlag.Require_ r2) f = (ci =? ByState.CIRequire)%Z /\
  ByFlag.has (ByFlag.Exclude r2) f = (ci =? ByState.CIExclude)%Z.

(** [r1] and [r2] are the same recipe in the two encodings: equal lengths
    and extra strings, every class of [r1] flagged in exactly the mask of its
    state, and white space, for which [r1] has no field, flagged nowhere. *)
Definition corresponds (r1 : ByState.CharRecipe) (r2 : ByFlag.CharRecipe)
    : Prop :=
  ByState.Length r1 = ByFlag.Length r2 /\
  ByState.IncludeExtra r1 = ByFlag.IncludeExtra r2 /\
  ByState.ExcludeExtra r1 = ByFlag.ExcludeExtra r2 /\
  class_matches (ByState.Uppers r1) ByFlag.Uppers r2 /\
  class_matches (ByState.Lowers r1) ByFlag.Lowers r2 /\
  class_matches (ByState.Digits r1) ByFlag.Digits r2 /\
  class_matches (ByState.Symbols r1) ByFlag.Symbols r2 /\
  class_matches (ByState.Ambiguous r1) ByFlag.Ambiguous r2 /\
  class_matches ByState.CIUnstated ByFlag.WhiteSpace r2.

(** The mask with flag [f] when the state [ci] is [want]. *)
Definition flag_if (ci want : ByState.CharInclusion) (f : ByFlag.CTFlag)
    : ByFlag.CTFlag :=
  if (ci =? want)%Z then f else 0.

(** The mask of the classes of [r1] in state [want]. *)
Definition mask_of (r1 : ByState.CharRecipe) (want : ByState.CharInclusion)
    : ByFlag.CTFlag :=
  N.lor (flag_if (ByState.Uppers r1) want ByFlag.Uppers)
  (N.lor (flag_if (ByState.Lowers r1) want ByFlag.Lowers)
  (N.lor (flag_if (ByState.Digits r1) want ByFlag.Digits)
  (N.lor (flag_if (ByState.Symbols r1) want ByFlag.Symbols)
         (flag_if (ByState.Ambiguous r1) want ByFlag.Ambiguous)))).

(** The flag-set encoding of a per-class-state recipe. *)
Definition encode (r1 : ByState.CharRecipe) : ByFlag.CharRecipe :=
  {| ByFlag.Length := ByState.Length r1;
     ByFlag.Allow := mask_of r1 ByState.CIAllow;
     ByFlag.Require_ := mask_of r1 ByState.CIRequire;
     ByFlag.Exclude := mask_of r1 ByState.CIExclude;
     ByFlag.ExcludeExtra := ByState.ExcludeExtra r1;
     ByFlag.IncludeExtra := ByState.IncludeExtra r1 |}.

(** ** Recipes used in the examples *)

(** The euro sign, U+20AC. *)
Definition euro : char := char_of_N 8364.


Definition flag_euro : ByFlag.CharRecipe :=
  {| ByFlag.Length := 4;
     ByFlag.Allow := 0; ByFlag.Require_ := 0; ByFlag.Exclude := 0;
     ByFlag.ExcludeExtra := [];
     ByFlag.IncludeExtra := [euro] |}.

(** Length 1, digits allowed and every digit struck out again. *)
Definition state_digits_struck : ByState.CharRecipe :=
  {| ByState.Length := 1;
     ByState.Uppers := ByState.CIUnstated;
     ByState.Lowers := ByState.CIUnstated;
     ByState.Digits := ByState.CIAllow;
     ByState.Symbols := ByState.CIUnstated;
     ByState.Ambiguous := ByState.CIUnstated;
     ByState.ExcludeExtra := CTDigits;
     ByState.IncludeExtra := [] |}.

(** Length 1, [Allow = Digits] and [Exclude = Digits]. *)
Definition flag_digits_struck : ByFlag.CharRecipe :=
  {| ByFlag.Length := 1;
     ByFlag.Allow := ByFlag.Digits;
     ByFlag.Require_ := 0;
     ByFlag.Exclude := ByFlag.Digits;
     ByFlag.ExcludeExtra := [];
     ByFlag.IncludeExtra := [] |}.

(** Length 1, lower-case letters allowed, digits required. *)
Definition state_require_digits : ByState.CharRecipe :=
  {| ByState.Length := 1;
     ByState.Uppers := ByState.CIUnstated;
     ByState.Lowers := ByState.CIAllow;
     ByState.Digits := ByState.CIRequire;
     ByState.Symbols := ByState.CIUnstated;
     ByState.Ambiguous := ByState.CIUnstated;
     ByState.ExcludeExtra := [];
     ByState.IncludeExtra := [] |}.

Definition flag_require_digits : ByFlag.CharRecipe :=
  {| ByFlag.Length := 1;
     ByFlag.Allow := ByFlag.Lowers;
     ByFlag.Require_ := ByFlag.Digits;
     ByFlag.Exclude := 0;
     ByFlag.ExcludeExtra := [];
     ByFlag.IncludeExtra := [] |}.

(** Length -1, every class unstated, [IncludeExtra] the two letters
    ["ab"]. *)
Definition state_negative : ByState.CharRecipe :=
  {| ByState.Length := -1;
     ByState.Uppers := ByState.CIUnstated;
     ByState.Lowers := ByState.CIUnstated;
     ByState.Digits := ByState.CIUnstated;
     ByState.Symbols := ByState.CIUnstated;
     ByState.Ambiguous := ByState.CIUnstated;
     ByState.ExcludeExtra := [];
     ByState.IncludeExtra := lit "ab" |}.

(** Overlapping classes and a repeating [IncludeExtra]: upper-case letters
    and the ambiguous characters allowed, digits required, symbols excluded,
    ["AA0 "] added and ["Z"] struck out. *)
Definition state_overlap : ByState.CharRecipe :=
  {| ByState.Length := 8;
     ByState.Uppers := ByState.CIAllow;
     ByState.Lowers := ByState.CIUnstated;
     ByState.Digits := ByState.CIRequire;
     ByState.Symbols := ByState.CIExclude;
     ByState.Ambiguous := ByState.CIAllow;
     ByState.ExcludeExtra := lit "Z";
     ByState.IncludeExtra := lit "AA0 " |}.

Definition flag_overlap : ByFlag.CharRecipe :=
  {| ByFlag.Length := 8;
     ByFlag.Allow := N.lor ByFlag.Uppers ByFlag.Ambiguous;
     ByFlag.Require_ := ByFlag.Digits;
     ByFlag.Exclude := ByFlag.Symbols;
     ByFlag.ExcludeExtra := lit "Z";
     ByFlag.IncludeExtra := lit "AA0 " |}.

(** ** Recipes derived from a recipe *)

(** The per-class-state recipe [r] with [e] appended to [ExcludeExtra]. *)
Definition state_exclude_more (r : ByState.CharRecipe) (e : gostring)
    : ByState.CharRecipe :=
  {| ByState.Length := ByState.Length r;
     ByState.Uppers := ByState.Uppers r;
     ByState.Lowers := ByState.Lowers r;
     ByState.Digits := ByState.Digits r;
     ByState.Symbols := ByState.Symbols r;
     ByState.Ambiguous := ByState.Ambiguous r;
     ByState.ExcludeExtra := ByState.ExcludeExtra r ++ e;
     ByState.IncludeExtra := ByState.IncludeExtra r |}.

(** The per-class-state recipe [r] with [e] appended to [IncludeExtra]. *)
Definition state_include_more (r : ByState.CharRecipe) (e : gostring)
    : ByState.CharRecipe :=
  {| ByState.Length := ByState.Length r;
     ByState.Uppers := ByState.Uppers r;
     ByState.Lowers := ByState.Lowers r;
     ByState.Digits := ByState.Digits r;
     ByState.Symbols := ByState.Symbols r;
     ByState.Ambiguous := ByState.Ambiguous r;
     ByState.ExcludeExtra := ByState.ExcludeExtra r;
     ByState.IncludeExtra := ByState.IncludeExtra r ++ e |}.

(** The mask of the six character type flags. *)
Definition known_flags : ByFlag.CTFlag := 63.

(** Length 3, upper-case letters in a state that is none of the four
    constants, lower-case letters allowed. *)
Definition state_unknown_uppers : ByState.CharRecipe :=
  {| ByState.Length := 3;
     ByState.Uppers := 7%Z;
     ByState.Lowers := ByState.CIAllow;
     ByState.Digits := ByState.CIUnstated;
     ByState.Symbols := ByState.CIUnstated;
     ByState.Ambiguous := ByState.CIUnstated;
     ByState.ExcludeExtra := [];
     ByState.IncludeExtra := [] |}.

(** [flag_overlap] with bits set in [Allow] that are no character type
    flags. *)
Definition flag_overlap_high : ByFlag.CharRecipe :=
  {| ByFlag.Length := 8;
     ByFlag.Allow :=
       N.lor (N.lor ByFlag.Uppers ByFlag.Ambiguous) (N.shiftl 1 9);
     ByFlag.Require_ := ByFlag.Digits;
     ByFlag.Exclude := N.lor ByFlag.Symbols (N.shiftl 1 6);
     ByFlag.ExcludeExtra := lit "Z";
     ByFlag.IncludeExtra := lit "AA0 " |}.

(** The characters of the upper-case, lower-case, digit and symbol
    classes. *)
Definition class_chars : gostring :=
  CTUpper ++ CTLower ++ CTDigits ++ CTSymbols.


Definition flag_huge : ByFlag.CharRecipe :=
  {| ByFlag.Length := 2 ^ 62;
     ByFlag.Allow := 0; ByFlag.Require_ := 0; ByFlag.Exclude := 0;
     ByFlag.ExcludeExtra := [];
     ByFlag.IncludeExtra := lit "a" |}.


(** * Properties *)

(** ** Characters, deduplication and string subtraction *)

Lemma char_ext (a b : char) : code a = code b -> a = b.
Proof.
  destruct a as [x hx], b as [y hy]; simpl; intros E; subst y.
  f_equal. apply UIP_dec. apply bool_dec.
Qed.

Lemma char_eqb_eq (a b : char) : char_eqb a b = true <-> a = b.
Proof.
  unfold char_eqb; rewrite N.eqb_eq; split.
  - apply char_ext.
  - now intros ->.
Qed.

Lemma contains_In (s : gostring) (c : char) : contains s c = true <-> In c s.
Proof.
  unfold contains; rewrite existsb_exists; split.
  - intros [x [Hin Heq]]. apply char_eqb_eq in Heq. now subst x.
  - intros Hin. exists c. split; [assumption | now apply char_eqb_eq].
Qed.

Lemma contains_false (s : gostring) (c : char) :
  contains s c = false <-> ~ In c s.
Proof.
  rewrite <- contains_In. destruct (contains s c); split; congruence.
Qed.

Lemma dedup_from_In (s seen : gostring) (c : char) :
  In c (dedup_from seen s) <-> In c s /\ ~ In c seen.
Proof.
  revert seen; induction s as [| x t IH]; intros seen; simpl.
  - tauto.
  - destruct (contains seen x) eqn:E.
    + apply contains_In in E. rewrite IH. split.
      * tauto.
      * intros [[-> | Ht] Hn]; [contradiction | tauto].
    + apply contains_false in E. simpl. rewrite IH. simpl. split.
      * intros [-> | [Ht Hn]]; [tauto |]. split; [tauto |].
        intros Hs; apply Hn; now right.
      * intros [[-> | Ht] Hn]; [now left |].
        destruct (char_eqb x c) eqn:Exc.
        -- apply char_eqb_eq in Exc. now left.
        -- right. split; [assumption |]. intros [-> | Hs]; [| tauto].
           assert (char_eqb c c = true) by now apply char_eqb_eq.
           congruence.
Qed.

Lemma dedup_from_NoDup (s seen : gostring) : NoDup (dedup_from seen s).
Proof.
  revert seen; induction s as [| x t IH]; intros seen; simpl.
  - constructor.
  - destruct (contains seen x); [apply IH |].
    constructor; [| apply IH].
    rewrite dedup_from_In. intros [_ Hn]. apply Hn. now left.
Qed.

Lemma subtractString_In (src del : gostring) (c : char) :
  In c (subtractString src del) <-> In c src /\ ~ In c del.
Proof.
  unfold subtractString, dedup.
  rewrite dedup_from_In, filter_In, negb_true_iff, contains_false.
  simpl; tauto.
Qed.

Lemma subtractString_NoDup (src del : gostring) :
  NoDup (subtractString src del).
Proof. apply dedup_from_NoDup. Qed.

Lemma Split_In (s : gostring) (x : gostring) :
  In x (Split s) <-> exists c, x = [c] /\ In c s.
Proof.
  unfold Split; rewrite in_map_iff; split.
  - intros [c [E H]]. exists c. now split.
  - intros [c [E H]]. exists c. now split.
Qed.

Lemma Split_In_char (s : gostring) (c : char) : In [c] (Split s) <-> In c s.
Proof.
  rewrite Split_In; split.
  - intros [d [E H]]. now injection E as ->.
  - intros H. now exists c.
Qed.

Lemma Split_NoDup (s : gostring) : NoDup s -> NoDup (Split s).
Proof.
  intros H. unfold Split. apply Finite.Injective_map_NoDup; [| assumption].
  intros a b E. now injection E.
Qed.

Lemma Split_length (s : gostring) : List.length (Split s) = List.length s.
Proof. apply length_map. Qed.

(** ** The resolver of the per-class-state recipe *)

Module ByStateFacts.
Import ByState.

Lemma switch_inclusion_ab f s ab ex c :
  In c (fst (switch_inclusion f s (ab, ex))) <->
  In c ab \/ ((f = CIAllow \/ f = CIRequire) /\ In c s).
Proof.
  unfold switch_inclusion, CIAllow, CIRequire, CIExclude, CIUnstated.
  destruct (Z.eqb_spec f 2); [simpl; rewrite in_app_iff; intuition lia |].
  destruct (Z.eqb_spec f 1); [simpl; rewrite in_app_iff; intuition lia |].
  destruct (Z.eqb_spec f 3); [simpl; intuition lia |].
  destruct (Z.eqb_spec f 0); simpl; intuition lia.
Qed.

Lemma switch_inclusion_exclude f s ab ex c :
  In c (snd (switch_inclusion f s (ab, ex))) <->
  In c ex \/ (f = CIExclude /\ In c s).
Proof.
  unfold switch_inclusion, CIAllow, CIRequire, CIExclude, CIUnstated.
  destruct (Z.eqb_spec f 2); [simpl; intuition lia |].
  destruct (Z.eqb_spec f 1); [simpl; intuition lia |].
  destruct (Z.eqb_spec f 3); [simpl; rewrite in_app_iff; intuition lia |].
  destruct (Z.eqb_spec f 0); simpl; intuition lia.
Qed.

(** What the loop leaves in [ab] and [exclude], for any list of entries
    whose names are fields of the recipe. *)
Lemma range_fields_spec (r : CharRecipe) (entries : list (string * gostring)) :
  (forall fname s, In (fname, s) entries -> FieldByName r fname <> None) ->
  forall acc, exists ab ex,
    range_fields r entries acc = Some (ab, ex) /\
    (forall c, In c ab <->
       In c (fst acc) \/
       exists fname s f, In (fname, s) entries /\
         FieldByName r fname = Some f /\
         (f = CIAllow \/ f = CIRequire) /\ In c s) /\
    (forall c, In c ex <->
       In c (snd acc) \/
       exists fname s, In (fname, s) entries /\
         FieldByName r fname = Some CIExclude /\ In c s).
Proof.
  induction entries as [| [fname s] rest IH]; intros Hk acc.
  - exists (fst acc), (snd acc). simpl. split; [now destruct acc |].
    split; intros c; split; try tauto.
    + intros [H | (? & ? & ? & [] & _)]; assumption.
    + intros [H | (? & ? & [] & _)]; assumption.
  - simpl. destruct (FieldByName r fname) as [f |] eqn:Ef.
    2: { exfalso. apply (Hk fname s); [now left | assumption]. }
    destruct (IH (fun n t H => Hk n t (or_intror H))
                 (switch_inclusion f s acc)) as (ab & ex & Hr & Hab & Hex).
    exists ab, ex. split; [assumption |].
    destruct acc as [ab0 ex0].
    split; intros c.
    + rewrite Hab, switch_inclusion_ab. simpl. split.
      * intros [[H | [Hf Hc]] | (n & t & g & Hin & Hg & Hs & Hc)].
        -- now left.
        -- right. exists fname, s, f. auto.
        -- right. exists n, t, g. auto.
      * intros [H | (n & t & g & [Heq | Hin] & Hg & Hs & Hc)].
        -- left; now left.
        -- injection Heq as -> ->. left; right.
           rewrite Ef in Hg. injection Hg as ->. auto.
        -- right. exists n, t, g. auto.
    + rewrite Hex, switch_inclusion_exclude. simpl. split.
      * intros [[H | [Hf Hc]] | (n & t & Hin & Hg & Hc)].
        -- now left.
        -- right. exists fname, s. subst f. auto.
        -- right. exists n, t. auto.
      * intros [H | (n & t & [Heq | Hin] & Hg & Hc)].
        -- left; now left.
        -- injection Heq as -> ->. left; right.
           rewrite Ef in Hg. injection Hg as ->. auto.
        -- right. exists n, t. auto.
Qed.

Lemma fieldNames_resolve (r : CharRecipe) fname s :
  In (fname, s) fieldNamesAlphabets -> FieldByName r fname <> None.
Proof.
  unfold fieldNamesAlphabets; simpl.
  intros [E | [E | [E | [E | [E | []]]]]]; injection E as <- _; discriminate.
Qed.

(** The resolved alphabet, whatever the order of the map iteration: it is
    returned, it is duplicate-free, and it holds the one-character strings of
    exactly the characters that are included and not excluded. *)
Lemma state_buildCharacterList_spec (order : list (string * gostring))
    (r : CharRecipe) :
  Permutation order fieldNamesAlphabets ->
  exists chars, buildCharacterList order r = Some chars /\
    NoDup chars /\
    forall x, In x chars <->
      exists c, x = [c] /\
        (In c (IncludeExtra r) \/ allowed r c) /\
        ~ In c (ExcludeExtra r) /\ ~ excluded r c.
Proof.
  intros P.
  assert (Hin : forall e, In e order <-> In e fieldNamesAlphabets).
  { intros e; split; apply Permutation_in;
      [assumption | now apply Permutation_sym]. }
  destruct (range_fields_spec r order
              (fun n t H => fieldNames_resolve r n t (proj1 (Hin _) H))
              (IncludeExtra r, ExcludeExtra r)) as (ab & ex & Hr & Hab & Hex).
  unfold buildCharacterList. rewrite Hr.
  exists (Split (subtractString ab ex)). split; [reflexivity |].
  split; [apply Split_NoDup, subtractString_NoDup |].
  intros x. rewrite Split_In.
  assert (Ha : forall c, In c ab <-> In c (IncludeExtra r) \/ allowed r c).
  { intros c. rewrite Hab. simpl. unfold allowed.
    split; (intros [H | (n & t & g & Hi & Hrest)];
            [now left | right; exists n, t, g; split;
                        [now apply Hin | exact Hrest]]). }
  assert (He : forall c, In c ex <-> In c (ExcludeExtra r) \/ excluded r c).
  { intros c. rewrite Hex. simpl. unfold excluded.
    split; (intros [H | (n & t & Hi & Hrest)];
            [now left | right; exists n, t; split;
                        [now apply Hin | exact Hrest]]). }
  split; intros [c [E H]]; exists c; (split; [exact E |]).
  - apply subtractString_In in H. rewrite Ha, He in H. tauto.
  - apply subtractString_In. rewrite Ha, He. tauto.
Qed.

End ByStateFacts.

(** ** The resolver of the bit-mask recipe *)

Module ByFlagFacts.
Import ByFlag.

Lemma visit_flag_ab r ab ex f ct c :
  In c (fst (visit_flag r (ab, ex) (f, ct))) <->
  In c ab \/
  ((has (Allow r) f = true \/ has (Require_ r) f = true) /\ In c ct).
Proof.
  unfold visit_flag; simpl.
  destruct (has (Allow r) f), (has (Require_ r) f);
    repeat rewrite in_app_iff; intuition congruence.
Qed.

Lemma visit_flag_exclude r ab ex f ct c :
  In c (snd (visit_flag r (ab, ex) (f, ct))) <->
  In c ex \/ (has (Exclude r) f = true /\ In c ct).
Proof.
  unfold visit_flag; simpl.
  destruct (has (Exclude r) f);
    repeat rewrite in_app_iff; intuition congruence.
Qed.

Lemma fold_visit_flag_spec (r : CharRecipe)
    (entries : list (CTFlag * gostring)) :
  forall acc,
    (forall c, In c (fst (fold_left (visit_flag r) entries acc)) <->
       In c (fst acc) \/
       exists f ct, In (f, ct) entries /\
         (has (Allow r) f = true \/ has (Require_ r) f = true) /\ In c ct) /\
    (forall c, In c (snd (fold_left (visit_flag r) entries acc)) <->
       In c (snd acc) \/
       exists f ct, In (f, ct) entries /\
         has (Exclude r) f = true /\ In c ct).
Proof.
  induction entries as [| [f ct] rest IH]; intros [ab0 ex0].
  - simpl. split; intros c; split; try tauto.
    + intros [H | (? & ? & [] & _)]; assumption.
    + intros [H | (? & ? & [] & _)]; assumption.
  - cbn [fold_left].
    destruct (IH (visit_flag r (ab0, ex0) (f, ct))) as [Hab Hex].
    split; intros c.
    + rewrite Hab, visit_flag_ab. simpl. split.
      * intros [[H | [Hf Hc]] | (g & t & Hin & Hrest)].
        -- now left.
        -- right. exists f, ct. auto.
        -- right. exists g, t. auto.
      * intros [H | (g & t & [Heq | Hin] & Hg & Hc)].
        -- left; now left.
        -- injection Heq as -> ->. left; right. auto.
        -- right. exists g, t. auto.
    + rewrite Hex, visit_flag_exclude. simpl. split.
      * intros [[H | [Hf Hc]] | (g & t & Hin & Hrest)].
        -- now left.
        -- right. exists f, ct. auto.
        -- right. exists g, t. auto.
      * intros [H | (g & t & [Heq | Hin] & Hg & Hc)].
        -- left; now left.
        -- injection Heq as -> ->. left; right. auto.
        -- right. exists g, t. auto.
Qed.

(** The resolved alphabet, whatever the order of the map iteration. *)
Lemma flag_buildCharacterList_spec (order : list (CTFlag * gostring))
    (r : CharRecipe) :
  Permutation order charTypeByFlag ->
  NoDup (buildCharacterList order r) /\
  forall x, In x (buildCharacterList order r) <->
    exists c, x = [c] /\
      (In c (IncludeExtra r) \/ allowed r c) /\
      ~ In c (ExcludeExtra r) /\ ~ excluded r c.
Proof.
  intros P.
  assert (Hin : forall e, In e order <-> In e charTypeByFlag).
  { intros e; split; apply Permutation_in;
      [assumption | now apply Permutation_sym]. }
  destruct (fold_visit_flag_spec r order (IncludeExtra r, ExcludeExtra r))
    as [Hab Hex].
  unfold buildCharacterList.
  destruct (fold_left (visit_flag r) order (IncludeExtra r, ExcludeExtra r))
    as [ab ex].
  simpl in Hab, Hex.
  split; [apply Split_NoDup, subtractString_NoDup |].
  intros x. rewrite Split_In.
  assert (Ha : forall c, In c ab <-> In c (IncludeExtra r) \/ allowed r c).
  { intros c. rewrite Hab. unfold allowed.
    split; (intros [H | (g & t & Hi & Hrest)];
            [now left | right; exists g, t; split;
                        [now apply Hin | exact Hrest]]). }
  assert (He : forall c, In c ex <-> In c (ExcludeExtra r) \/ excluded r c).
  { intros c. rewrite Hex. unfold excluded.
    split; (intros [H | (g & t & Hi & Hrest)];
            [now left | right; exists g, t; split;
                        [now apply Hin | exact Hrest]]). }
  split; intros [c [E H]]; exists c; (split; [exact E |]).
  - apply subtractString_In in H. rewrite Ha, He in H. tauto.
  - apply subtractString_In. rewrite Ha, He. tauto.
Qed.

End ByFlagFacts.

(** ** The inclusion predicates, class by class *)

Module ClassFacts.

Lemma state_allowed_iff (r : ByState.CharRecipe) (c : char) :
  ByState.allowed r c <->
  ((ByState.Uppers r = ByState.CIAllow \/
    ByState.Uppers r = ByState.CIRequire) /\ In c CTUpper) \/
  ((ByState.Lowers r = ByState.CIAllow \/
    ByState.Lowers r = ByState.CIRequire) /\ In c CTLower) \/
  ((ByState.Digits r = ByState.CIAllow \/
    ByState.Digits r = ByState.CIRequire) /\ In c CTDigits) \/
  ((ByState.Symbols r = ByState.CIAllow \/
    ByState.Symbols r = ByState.CIRequire) /\ In c CTSymbols) \/
  ((ByState.Ambiguous r = ByState.CIAllow \/
    ByState.Ambiguous r = ByState.CIRequire) /\ In c CTAmbiguous).
Proof.
  unfold ByState.allowed, ByState.fieldNamesAlphabets. split.
  - intros (n & s & f & Hin & Hf & Hs & Hc). cbn [In] in Hin.
    destruct Hin as [E | [E | [E | [E | [E | []]]]]];
      injection E as <- <-; injection Hf as <-; tauto.
  - intros [[Hs Hc] | [[Hs Hc] | [[Hs Hc] | [[Hs Hc] | [Hs Hc]]]]].
    + exists "Uppers"%string, CTUpper, (ByState.Uppers r). cbn [In]. tauto.
    + exists "Lowers"%string, CTLower, (ByState.Lowers r). cbn [In]. tauto.
    + exists "Digits"%string, CTDigits, (ByState.Digits r). cbn [In]. tauto.
    + exists "Symbols"%string, CTSymbols, (ByState.Symbols r). cbn [In]. tauto.
    + exists "Ambiguous"%string, CTAmbiguous, (ByState.Ambiguous r).
      cbn [In]. tauto.
Qed.

Lemma state_excluded_iff (r : ByState.CharRecipe) (c : char) :
  ByState.excluded r c <->
  (ByState.Uppers r = ByState.CIExclude /\ In c CTUpper) \/
  (ByState.Lowers r = ByState.CIExclude /\ In c CTLower) \/
  (ByState.Digits r = ByState.CIExclude /\ In c CTDigits) \/
  (ByState.Symbols r = ByState.CIExclude /\ In c CTSymbols) \/
  (ByState.Ambiguous r = ByState.CIExclude /\ In c CTAmbiguous).
Proof.
  unfold ByState.excluded, ByState.fieldNamesAlphabets. split.
  - intros (n & s & Hin & Hf & Hc). cbn [In] in Hin.
    destruct Hin as [E | [E | [E | [E | [E | []]]]]];
      injection E as <- <-; injection Hf as Hf; tauto.
  - intros [[Hs Hc] | [[Hs Hc] | [[Hs Hc] | [[Hs Hc] | [Hs Hc]]]]].
    + exists "Uppers"%string, CTUpper. cbn [In]. rewrite <- Hs. tauto.
    + exists "Lowers"%string, CTLower. cbn [In]. rewrite <- Hs. tauto.
    + exists "Digits"%string, CTDigits. cbn [In]. rewrite <- Hs. tauto.
    + exists "Symbols"%string, CTSymbols. cbn [In]. rewrite <- Hs. tauto.
    + exists "Ambiguous"%string, CTAmbiguous. cbn [In]. rewrite <- Hs. tauto.
Qed.

Lemma flag_allowed_iff (r : ByFlag.CharRecipe) (c : char) :
  let inc f := ByFlag.has (ByFlag.Allow r) f = true \/
               ByFlag.has (ByFlag.Require_ r) f = true in
  ByFlag.allowed r c <->
  (inc ByFlag.Uppers /\ In c CTUpper) \/
  (inc ByFlag.Lowers /\ In c CTLower) \/
  (inc ByFlag.Digits /\ In c CTDigits) \/
  (inc ByFlag.Symbols /\ In c CTSymbols) \/
  (inc ByFlag.Ambiguous /\ In c CTAmbiguous) \/
  (inc ByFlag.WhiteSpace /\ In c CTWhiteSpace).
Proof.
  intros inc. unfold inc, ByFlag.allowed, ByFlag.charTypeByFlag. split.
  - intros (f & ct & Hin & Hf & Hc). cbn [In] in Hin.
    destruct Hin as [E | [E | [E | [E | [E | [E | []]]]]]];
      injection E as <- <-; tauto.
  - intros [[Hs Hc] | [[Hs Hc] | [[Hs Hc] | [[Hs Hc] | [[Hs Hc] | [Hs Hc]]]]]].
    + exists ByFlag.Uppers, CTUpper. cbn [In]. tauto.
    + exists ByFlag.Lowers, CTLower. cbn [In]. tauto.
    + exists ByFlag.Digits, CTDigits. cbn [In]. tauto.
    + exists ByFlag.Symbols, CTSymbols. cbn [In]. tauto.
    + exists ByFlag.Ambiguous, CTAmbiguous. cbn [In]. tauto.
    + exists ByFlag.WhiteSpace, CTWhiteSpace. cbn [In]. tauto.
Qed.

Lemma flag_excluded_iff (r : ByFlag.CharRecipe) (c : char) :
  let exc f := ByFlag.has (ByFlag.Exclude r) f = true in
  ByFlag.excluded r c <->
  (exc ByFlag.Uppers /\ In c CTUpper) \/
  (exc ByFlag.Lowers /\ In c CTLower) \/
  (exc ByFlag.Digits /\ In c CTDigits) \/
  (exc ByFlag.Symbols /\ In c CTSymbols) \/
  (exc ByFlag.Ambiguous /\ In c CTAmbiguous) \/
  (exc ByFlag.WhiteSpace /\ In c CTWhiteSpace).
Proof.
  intros exc. unfold exc, ByFlag.excluded, ByFlag.charTypeByFlag. split.
  - intros (f & ct & Hin & Hf & Hc). cbn [In] in Hin.
    destruct Hin as [E | [E | [E | [E | [E | [E | []]]]]]];
      injection E as <- <-; tauto.
  - intros [[Hs Hc] | [[Hs Hc] | [[Hs Hc] | [[Hs Hc] | [[Hs Hc] | [Hs Hc]]]]]].
    + exists ByFlag.Uppers, CTUpper. cbn [In]. tauto.
    + exists ByFlag.Lowers, CTLower. cbn [In]. tauto.
    + exists ByFlag.Digits, CTDigits. cbn [In]. tauto.
    + exists ByFlag.Symbols, CTSymbols. cbn [In]. tauto.
    + exists ByFlag.Ambiguous, CTAmbiguous. cbn [In]. tauto.
    + exists ByFlag.WhiteSpace, CTWhiteSpace. cbn [In]. tauto.
Qed.

End ClassFacts.

(** ** Alphabet sizes and the drawing loop *)

(** Duplicate-free numbers below [K] are at most [K] many. *)
Lemma NoDup_below_length (K : N) (l : list N) :
  NoDup l -> (forall x, In x l -> x < K) -> N.of_nat (List.length l) <= K.
Proof.
  intros Hnd Hlt.
  assert (Hnd' : NoDup (map N.to_nat l)).
  { apply Finite.Injective_map_NoDup; [| assumption].
    intros a b E. now apply N2Nat.inj. }
  assert (Hincl : incl (map N.to_nat l) (seq 0 (N.to_nat K))).
  { intros n Hn. apply in_map_iff in Hn. destruct Hn as [x [<- Hx]].
    apply in_seq. specialize (Hlt x Hx). lia. }
  pose proof (NoDup_incl_length Hnd' Hincl) as H.
  rewrite length_map, length_seq in H. lia.
Qed.

(** A duplicate-free string has at most as many characters as there are
    code points, so its length survives the conversion to [uint32]. *)
Lemma uint32_of_len_NoDup (s : gostring) :
  NoDup s -> uint32_of_len (List.length (Split s)) = N.of_nat (List.length s).
Proof.
  intros Hnd. rewrite Split_length. unfold uint32_of_len.
  apply N.mod_small.
  assert (H : N.of_nat (List.length (map code s)) <= MaxRune + 1).
  { apply NoDup_below_length.
    - apply Finite.Injective_map_NoDup; [| assumption].
      intros a b. apply char_ext.
    - intros x Hx. apply in_map_iff in Hx. destruct Hx as [c [<- _]].
      pose proof (code_ok c) as Hc. apply N.leb_le in Hc. lia. }
  rewrite length_map in H.
  apply N.le_lt_trans with (m := MaxRune + 1); [exact H |].
  reflexivity.
Qed.

Section Drawing.

Variable rnd : Sampler.

(** With no character to choose from, the first draw already fails: no
    index is in range for the empty slice. *)
Lemma draw_tokens_empty (k : nat) (s : RandState rnd) :
  draw_tokens rnd [] (S k) s = None.
Proof.
  simpl. destruct (Int31n rnd (uint32_of_len 0) s) as [[i s1] |];
    [| reflexivity].
  now destruct (N.to_nat i).
Qed.

Hypothesis Int31n_range : sampler_contract rnd.

(** With a sampler that keeps its contract the loop runs to its end: it
    makes [k] draws, and the tokens are the drawn characters in draw
    order. *)
Lemma draw_tokens_spec (chars : list gostring) :
  chars <> [] ->
  uint32_of_len (List.length chars) = N.of_nat (List.length chars) ->
  forall (k : nat) (s : RandState rnd),
  exists toks s' idxs,
    draw_tokens rnd chars k s = Some (toks, s') /\
    draws rnd (N.of_nat (List.length chars)) k s = Some idxs /\
    List.length idxs = k /\
    Forall (fun i => i < N.of_nat (List.length chars)) idxs /\
    toks = map (fun i => mkToken (nth (N.to_nat i) chars []) AtomTokenType)
               idxs.
Proof.
  intros Hne Hlen. rewrite <- Hlen.
  assert (Hpos : 0 < uint32_of_len (List.length chars)).
  { rewrite Hlen. destruct chars; [congruence | simpl; lia]. }
  induction k as [| k IH]; intros s.
  - exists [], s, []. simpl. repeat split; constructor.
  - simpl.
    destruct (Int31n_range _ s Hpos) as (i & s1 & Hi & Hlt).
    rewrite Hi.
    destruct (nth_error chars (N.to_nat i)) as [c |] eqn:Ec.
    2: { apply nth_error_None in Ec. rewrite Hlen in Hlt. lia. }
    destruct (IH s1) as (toks & s2 & idxs & Hd & Hdr & Hl & Hall & Ht).
    rewrite Hd, Hdr.
    exists (mkToken c AtomTokenType :: toks), s2, (i :: idxs).
    repeat split.
    + simpl. now rewrite Hl.
    + constructor; assumption.
    + simpl. rewrite <- Ht. f_equal. f_equal.
      symmetry. now apply nth_error_nth.
Qed.

End Drawing.

(** The seedable sampler keeps the contract. *)
Lemma seeded_contract : sampler_contract seeded.
Proof.
  intros n s Hn. simpl.
  destruct (N.eqb_spec n 0) as [-> | Hne]; [lia |].
  exists (s mod n), (s / n). split; [reflexivity |].
  apply N.mod_lt; assumption.
Qed.

(** [make] returns for every length within the limit. *)
Lemma make_Tokens_true mem n :
  (0 <= n <= max_len mem)%Z -> make_Tokens mem n = true.
Proof.
  intros [H0 H1]. unfold make_Tokens.
  destruct (Z.leb_spec 0 n); [| lia].
  now destruct (Z.leb_spec n (max_len mem)); [| lia].
Qed.

(** ** The generator of the per-class-state recipe *)

Module ByStateGenerate.
Import ByState.

(** Whatever [buildCharacterList] returns is the split of a duplicate-free
    string. *)
Lemma state_buildCharacterList_Split order r chars :
  buildCharacterList order r = Some chars ->
  exists s, chars = Split s /\ NoDup s.
Proof.
  unfold buildCharacterList.
  destruct (range_fields r order (IncludeExtra r, ExcludeExtra r))
    as [[ab ex] |]; [| discriminate].
  intros E; injection E as <-.
  exists (subtractString ab ex). split; [reflexivity |].
  apply subtractString_NoDup.
Qed.

(** The size of the alphabet does not depend on the iteration order. *)
Lemma state_buildCharacterList_length order order' r chars :
  Permutation order fieldNamesAlphabets ->
  Permutation order' fieldNamesAlphabets ->
  buildCharacterList order r = Some chars ->
  exists chars', buildCharacterList order' r = Some chars' /\
    List.length chars' = List.length chars /\
    forall x, In x chars' <-> In x chars.
Proof.
  intros P P' E.
  destruct (ByStateFacts.state_buildCharacterList_spec order r P)
    as (l & El & Hnd & Hin).
  destruct (ByStateFacts.state_buildCharacterList_spec order' r P')
    as (l' & El' & Hnd' & Hin').
  rewrite E in El; injection El as <-.
  exists l'. split; [assumption |].
  assert (Hsame : forall x, In x l' <-> In x chars).
  { intros x. now rewrite Hin, Hin'. }
  split; [| exact Hsame].
  apply Permutation_length, NoDup_Permutation; assumption.
Qed.

Lemma state_Entropy_size order order' r chars :
  Permutation order fieldNamesAlphabets ->
  Permutation order' fieldNamesAlphabets ->
  buildCharacterList order r = Some chars ->
  Entropy order' r =
    Some (float32
            (entropySimple (Length r) (Z.of_nat (List.length chars)))).
Proof.
  intros P P' E.
  destruct (state_buildCharacterList_length order order' r chars P P' E)
    as (l' & El' & Hlen & _).
  unfold Entropy. now rewrite El', Hlen.
Qed.

Lemma state_Generate_short mem rnd order order' r s :
  (Length r < 1)%Z ->
  Generate mem rnd order order' r s = Failed (InvalidLength (Length r)).
Proof.
  intros H. unfold Generate.
  now destruct (Z.ltb_spec (Length r) 1); [| lia].
Qed.

Lemma state_Generate_empty mem rnd order order' r s :
  (1 <= Length r)%Z ->
  buildCharacterList order r = Some [] ->
  Generate mem rnd order order' r s = Panicked.
Proof.
  intros H E. unfold Generate.
  destruct (Z.ltb_spec (Length r) 1); [lia |].
  rewrite E. destruct (make_Tokens mem (Length r)); [| reflexivity].
  destruct (Z.to_nat (Length r)) as [| k] eqn:Ek; [lia |].
  now rewrite draw_tokens_empty.
Qed.

(** A length that [make] cannot allocate ends the call before any draw. *)
Lemma state_Generate_too_long mem rnd order order' r s :
  (1 <= Length r)%Z ->
  (max_len mem < Length r)%Z ->
  Generate mem rnd order order' r s = Panicked.
Proof.
  intros H Hm. unfold Generate.
  destruct (Z.ltb_spec (Length r) 1); [lia |].
  destruct (buildCharacterList order r); [| reflexivity].
  unfold make_Tokens.
  destruct (Z.leb_spec (Length r) (max_len mem)); [lia |].
  now rewrite andb_false_r.
Qed.

Lemma state_Generate_returns mem rnd order order' r s chars :
  sampler_contract rnd ->
  Permutation order fieldNamesAlphabets ->
  Permutation order' fieldNamesAlphabets ->
  (1 <= Length r <= max_len mem)%Z ->
  buildCharacterList order r = Some chars ->
  chars <> [] ->
  exists toks s' idxs,
    Generate mem rnd order order' r s =
      Returned (mkPassword toks
                  (float32
                     (entropySimple (Length r)
                        (Z.of_nat (List.length chars)))),
                s') /\
    draws rnd (N.of_nat (List.length chars)) (Z.to_nat (Length r)) s
      = Some idxs /\
    List.length idxs = Z.to_nat (Length r) /\
    Forall (fun i => i < N.of_nat (List.length chars)) idxs /\
    toks = map (fun i => mkToken (nth (N.to_nat i) chars []) AtomTokenType)
               idxs.
Proof.
  intros C P P' HL E Hne.
  destruct (state_buildCharacterList_Split order r chars E) as (a & -> & Hnd).
  pose proof (uint32_of_len_NoDup a Hnd) as Hu.
  rewrite <- (Split_length a) in Hu.
  destruct (draw_tokens_spec rnd C (Split a) Hne Hu (Z.to_nat (Length r)) s)
    as (toks & s' & idxs & Hd & Hdr & Hl & Hall & Ht).
  exists toks, s', idxs.
  split; [| now repeat split].
  unfold Generate.
  destruct (Z.ltb_spec (Length r) 1); [lia |].
  rewrite E, make_Tokens_true by lia.
  rewrite Hd, (state_Entropy_size order order' r (Split a) P P' E).
  reflexivity.
Qed.

End ByStateGenerate.

(** ** The generator of the bit-mask recipe *)

Module ByFlagGenerate.
Import ByFlag.

Lemma flag_buildCharacterList_Split order r :
  exists s, buildCharacterList order r = Split s /\ NoDup s.
Proof.
  unfold buildCharacterList.
  destruct (fold_left (visit_flag r) order (IncludeExtra r, ExcludeExtra r))
    as [ab ex].
  exists (subtractString ab ex). split; [reflexivity |].
  apply subtractString_NoDup.
Qed.

Lemma flag_buildCharacterList_length order order' r :
  Permutation order charTypeByFlag ->
  Permutation order' charTypeByFlag ->
  List.length (buildCharacterList order' r) =
  List.length (buildCharacterList order r).
Proof.
  intros P P'.
  destruct (ByFlagFacts.flag_buildCharacterList_spec order r P)
    as (Hnd & Hin).
  destruct (ByFlagFacts.flag_buildCharacterList_spec order' r P')
    as (Hnd' & Hin').
  apply Permutation_length, NoDup_Permutation; try assumption.
  intros x. now rewrite Hin, Hin'.
Qed.

Lemma flag_Generate_short mem rnd order order' r s :
  (Length r < 1)%Z ->
  Generate mem rnd order order' r s = Failed (InvalidLength (Length r)).
Proof.
  intros H. unfold Generate.
  now destruct (Z.ltb_spec (Length r) 1); [| lia].
Qed.

Lemma flag_Generate_empty mem rnd order order' r s :
  (1 <= Length r)%Z ->
  buildCharacterList order r = [] ->
  Generate mem rnd order order' r s = Panicked.
Proof.
  intros H E. unfold Generate.
  destruct (Z.ltb_spec (Length r) 1); [lia |].
  rewrite E. destruct (make_Tokens mem (Length r)); [| reflexivity].
  destruct (Z.to_nat (Length r)) as [| k] eqn:Ek; [lia |].
  now rewrite draw_tokens_empty.
Qed.

Lemma flag_Generate_too_long mem rnd order order' r s :
  (1 <= Length r)%Z ->
  (max_len mem < Length r)%Z ->
  Generate mem rnd order order' r s = Panicked.
Proof.
  intros H Hm. unfold Generate.
  destruct (Z.ltb_spec (Length r) 1); [lia |].
  unfold make_Tokens.
  destruct (Z.leb_spec (Length r) (max_len mem)); [lia |].
  now rewrite andb_false_r.
Qed.

Lemma flag_Generate_returns mem rnd order order' r s :
  sampler_contract rnd ->
  Permutation order charTypeByFlag ->
  Permutation order' charTypeByFlag ->
  (1 <= Length r <= max_len mem)%Z ->
  buildCharacterList order r <> [] ->
  let chars := buildCharacterList order r in
  exists toks s' idxs,
    Generate mem rnd order order' r s =
      Returned (mkPassword toks
                  (float32
                     (entropySimple (Length r)
                        (Z.of_nat (List.length chars)))),
                s') /\
    draws rnd (N.of_nat (List.length chars)) (Z.to_nat (Length r)) s
      = Some idxs /\
    List.length idxs = Z.to_nat (Length r) /\
    Forall (fun i => i < N.of_nat (List.length chars)) idxs /\
    toks = map (fun i => mkToken (nth (N.to_nat i) chars []) AtomTokenType)
               idxs.
Proof.
  intros C P P' HL Hne chars.
  destruct (flag_buildCharacterList_Split order r) as (a & Ea & Hnd).
  pose proof (uint32_of_len_NoDup a Hnd) as Hu.
  rewrite <- (Split_length a) in Hu.
  subst chars. rewrite Ea in Hne |- *.
  destruct (draw_tokens_spec rnd C (Split a) Hne Hu (Z.to_nat (Length r)) s)
    as (toks & s' & idxs & Hd & Hdr & Hl & Hall & Ht).
  exists toks, s', idxs.
  split; [| now repeat split].
  unfold Generate, Entropy.
  destruct (Z.ltb_spec (Length r) 1); [lia |].
  rewrite (make_Tokens_true mem (Length r)) by lia.
  rewrite (flag_buildCharacterList_length order order' r P P').
  rewrite Ea, Hd. reflexivity.
Qed.

End ByFlagGenerate.

(** ** Moving a class from Require to Allow *)

Module RequireFacts.

(** Two per-class-state recipes with the same extra strings, the same
    allowed characters and the same excluded characters resolve to the same
    set, whatever the iteration orders. *)
Lemma state_same_alphabet o o' (r r' : ByState.CharRecipe) :
  Permutation o ByState.fieldNamesAlphabets ->
  Permutation o' ByState.fieldNamesAlphabets ->
  ByState.IncludeExtra r = ByState.IncludeExtra r' ->
  ByState.ExcludeExtra r = ByState.ExcludeExtra r' ->
  (forall c, ByState.allowed r c <-> ByState.allowed r' c) ->
  (forall c, ByState.excluded r c <-> ByState.excluded r' c) ->
  exists chars chars',
    ByState.buildCharacterList o r = Some chars /\
    ByState.buildCharacterList o' r' = Some chars' /\
    forall x, In x chars <-> In x chars'.
Proof.
  intros P P' Ei Ee Ha Hx.
  destruct (ByStateFacts.state_buildCharacterList_spec o r P)
    as (l & El & _ & Hin).
  destruct (ByStateFacts.state_buildCharacterList_spec o' r' P')
    as (l' & El' & _ & Hin').
  exists l, l'. split; [exact El |]. split; [exact El' |].
  intros x. rewrite Hin, Hin', Ei, Ee.
  split; intros (c & E & H1 & H2 & H3); exists c;
    (split; [exact E |]); rewrite ?Ha, ?Hx in *; tauto.
Qed.

Lemma flag_same_alphabet o o' (r r' : ByFlag.CharRecipe) :
  Permutation o ByFlag.charTypeByFlag ->
  Permutation o' ByFlag.charTypeByFlag ->
  ByFlag.IncludeExtra r = ByFlag.IncludeExtra r' ->
  ByFlag.ExcludeExtra r = ByFlag.ExcludeExtra r' ->
  (forall c, ByFlag.allowed r c <-> ByFlag.allowed r' c) ->
  (forall c, ByFlag.excluded r c <-> ByFlag.excluded r' c) ->
  forall x, In x (ByFlag.buildCharacterList o r) <->
            In x (ByFlag.buildCharacterList o' r').
Proof.
  intros P P' Ei Ee Ha Hx x.
  destruct (ByFlagFacts.flag_buildCharacterList_spec o r P) as (_ & Hin).
  destruct (ByFlagFacts.flag_buildCharacterList_spec o' r' P') as (_ & Hin').
  rewrite Hin, Hin', Ei, Ee.
  split; intros (c & E & H1 & H2 & H3); exists c;
    (split; [exact E |]); rewrite ?Ha, ?Hx in *; tauto.
Qed.

Lemma with_field_allowed (r : ByState.CharRecipe) (fname : string) c :
  ByState.FieldByName r fname = Some ByState.CIRequire ->
  ByState.allowed r c <->
  ByState.allowed (ByState.with_field r fname ByState.CIAllow) c.
Proof.
  intros H. rewrite !ClassFacts.state_allowed_iff.
  generalize (In c CTUpper) (In c CTLower) (In c CTDigits)
             (In c CTSymbols) (In c CTAmbiguous).
  intros U L D Y A.
  unfold ByState.FieldByName in H.
  destruct (String.eqb_spec fname "Uppers") as [-> | _];
    [injection H as H; simpl; rewrite H; tauto |].
  destruct (String.eqb_spec fname "Lowers") as [-> | _];
    [injection H as H; simpl; rewrite H; tauto |].
  destruct (String.eqb_spec fname "Digits") as [-> | _];
    [injection H as H; simpl; rewrite H; tauto |].
  destruct (String.eqb_spec fname "Symbols") as [-> | _];
    [injection H as H; simpl; rewrite H; tauto |].
  destruct (String.eqb_spec fname "Ambiguous") as [-> | _];
    [injection H as H; simpl; rewrite H; tauto |].
  discriminate.
Qed.

Lemma with_field_excluded (r : ByState.CharRecipe) (fname : string) c :
  ByState.FieldByName r fname = Some ByState.CIRequire ->
  ByState.excluded r c <->
  ByState.excluded (ByState.with_field r fname ByState.CIAllow) c.
Proof.
  intros H. rewrite !ClassFacts.state_excluded_iff.
  generalize (In c CTUpper) (In c CTLower) (In c CTDigits)
             (In c CTSymbols) (In c CTAmbiguous).
  intros U L D Y A.
  unfold ByState.FieldByName in H.
  unfold ByState.CIRequire, ByState.CIAllow, ByState.CIExclude in *.
  destruct (String.eqb_spec fname "Uppers") as [-> | _];
    [injection H as H; simpl; rewrite H; intuition discriminate |].
  destruct (String.eqb_spec fname "Lowers") as [-> | _];
    [injection H as H; simpl; rewrite H; intuition discriminate |].
  destruct (String.eqb_spec fname "Digits") as [-> | _];
    [injection H as H; simpl; rewrite H; intuition discriminate |].
  destruct (String.eqb_spec fname "Symbols") as [-> | _];
    [injection H as H; simpl; rewrite H; intuition discriminate |].
  destruct (String.eqb_spec fname "Ambiguous") as [-> | _];
    [injection H as H; simpl; rewrite H; intuition discriminate |].
  discriminate.
Qed.

Lemma with_field_lookup (r : ByState.CharRecipe) (fname n : string) :
  ByState.FieldByName r fname = Some ByState.CIRequire ->
  ByState.FieldByName (ByState.with_field r fname ByState.CIAllow) n
    = ByState.FieldByName r n \/
  (ByState.FieldByName r n = Some ByState.CIRequire /\
   ByState.FieldByName (ByState.with_field r fname ByState.CIAllow) n
     = Some ByState.CIAllow).
Proof.
  intros H. unfold ByState.FieldByName in *.
  destruct (String.eqb_spec fname "Uppers") as [-> | _];
    [| destruct (String.eqb_spec fname "Lowers") as [-> | _];
    [| destruct (String.eqb_spec fname "Digits") as [-> | _];
    [| destruct (String.eqb_spec fname "Symbols") as [-> | _];
    [| destruct (String.eqb_spec fname "Ambiguous") as [-> | _];
    [| discriminate]]]]];
    injection H as H; simpl;
    destruct (String.eqb n "Uppers"); auto;
    destruct (String.eqb n "Lowers"); auto;
    destruct (String.eqb n "Digits"); auto;
    destruct (String.eqb n "Symbols"); auto;
    destruct (String.eqb n "Ambiguous"); auto;
    right; rewrite H; auto.
Qed.

(** Under one and the same iteration order the loop leaves the very same
    two strings, whatever [subtractString] does with them afterwards. *)
Lemma with_field_range (r : ByState.CharRecipe) (fname : string) :
  ByState.FieldByName r fname = Some ByState.CIRequire ->
  forall entries acc,
    ByState.range_fields (ByState.with_field r fname ByState.CIAllow)
      entries acc
    = ByState.range_fields r entries acc.
Proof.
  intros H. induction entries as [| [n s] rest IH]; intros acc;
    cbn [ByState.range_fields]; [reflexivity |].
  destruct (with_field_lookup r fname n H) as [E | [E1 E2]].
  - rewrite E. destruct (ByState.FieldByName r n); [apply IH | reflexivity].
  - rewrite E1, E2, IH. destruct acc. reflexivity.
Qed.

(** The mask test on a single-bit flag reads one bit of the mask. *)
Lemma has_bit (m k : N) : ByFlag.has m (N.shiftl 1 k) = N.testbit m k.
Proof.
  unfold ByFlag.has. rewrite N.shiftl_1_l.
  destruct (N.testbit m k) eqn:E.
  - apply N.eqb_eq, N.bits_inj. intros i.
    rewrite N.land_spec, N.pow2_bits_eqb.
    destruct (N.eqb_spec k i) as [<- | _];
      [rewrite E; reflexivity | apply andb_false_r].
  - apply N.eqb_neq. intros H.
    assert (Hb : N.testbit (N.land m (2 ^ k)) k = N.testbit (2 ^ k) k)
      by now rewrite H.
    rewrite N.land_spec, N.pow2_bits_true, E in Hb. discriminate.
Qed.

Lemma flag_is_bit (f : ByFlag.CTFlag) (ct : gostring) :
  In (f, ct) ByFlag.charTypeByFlag -> exists k, f = N.shiftl 1 k.
Proof.
  unfold ByFlag.charTypeByFlag. cbn [In].
  intros [E | [E | [E | [E | [E | [E | []]]]]]]; injection E as <- _;
    eexists; reflexivity.
Qed.

Lemma has_lor_bit (m k j : N) :
  ByFlag.has (N.lor m (N.shiftl 1 k)) (N.shiftl 1 j)
  = N.testbit m j || (k =? j).
Proof.
  rewrite has_bit, N.lor_spec, N.shiftl_1_l, N.pow2_bits_eqb. reflexivity.
Qed.

Lemma has_ldiff_bit (m k j : N) :
  ByFlag.has (N.ldiff m (N.shiftl 1 k)) (N.shiftl 1 j)
  = N.testbit m j && negb (k =? j).
Proof.
  rewrite has_bit, N.ldiff_spec, N.shiftl_1_l, N.pow2_bits_eqb. reflexivity.
Qed.

Lemma require_to_allow_allowed (r : ByFlag.CharRecipe) f ct0 c :
  In (f, ct0) ByFlag.charTypeByFlag ->
  ByFlag.has (ByFlag.Require_ r) f = true ->
  ByFlag.allowed r c <-> ByFlag.allowed (ByFlag.require_to_allow r f) c.
Proof.
  intros Hf Hr. destruct (flag_is_bit f ct0 Hf) as [k ->].
  rewrite has_bit in Hr.
  unfold ByFlag.allowed, ByFlag.require_to_allow.
  cbn [ByFlag.Allow ByFlag.Require_].
  split; intros (g & ct & Hg & Hh & Hc); exists g, ct;
    (split; [exact Hg |]); (split; [| exact Hc]);
    destruct (flag_is_bit g ct Hg) as [j ->];
    rewrite has_lor_bit, has_ldiff_bit in *;
    rewrite !has_bit in *;
    destruct (N.testbit (ByFlag.Allow r) j) eqn:Ea;
    destruct (N.testbit (ByFlag.Require_ r) j) eqn:Er;
    destruct (N.eqb_spec k j) as [E | _]; try subst j;
    simpl in *; intuition congruence.
Qed.

End RequireFacts.

(** ** The two encodings *)

Module EncodingFacts.

Lemma matches_allowed ci f r2 :
  class_matches ci f r2 ->
  (ByFlag.has (ByFlag.Allow r2) f = true \/
   ByFlag.has (ByFlag.Require_ r2) f = true) <->
  (ci = ByState.CIAllow \/ ci = ByState.CIRequire).
Proof.
  intros (Ha & Hr & _). rewrite Ha, Hr, !Z.eqb_eq. tauto.
Qed.

Lemma matches_excluded ci f r2 :
  class_matches ci f r2 ->
  ByFlag.has (ByFlag.Exclude r2) f = true <-> ci = ByState.CIExclude.
Proof.
  intros (_ & _ & He). rewrite He, Z.eqb_eq. tauto.
Qed.

Lemma corresponds_allowed r1 r2 c :
  corresponds r1 r2 -> ByState.allowed r1 c <-> ByFlag.allowed r2 c.
Proof.
  intros (_ & _ & _ & HU & HL & HD & HS & HA & HW).
  rewrite ClassFacts.state_allowed_iff, ClassFacts.flag_allowed_iff.
  rewrite (matches_allowed _ _ _ HU), (matches_allowed _ _ _ HL),
    (matches_allowed _ _ _ HD), (matches_allowed _ _ _ HS),
    (matches_allowed _ _ _ HA), (matches_allowed _ _ _ HW).
  unfold ByState.CIUnstated, ByState.CIAllow, ByState.CIRequire.
  intuition discriminate.
Qed.

Lemma corresponds_excluded r1 r2 c :
  corresponds r1 r2 -> ByState.excluded r1 c <-> ByFlag.excluded r2 c.
Proof.
  intros (_ & _ & _ & HU & HL & HD & HS & HA & HW).
  rewrite ClassFacts.state_excluded_iff, ClassFacts.flag_excluded_iff.
  rewrite (matches_excluded _ _ _ HU), (matches_excluded _ _ _ HL),
    (matches_excluded _ _ _ HD), (matches_excluded _ _ _ HS),
    (matches_excluded _ _ _ HA), (matches_excluded _ _ _ HW).
  unfold ByState.CIUnstated, ByState.CIExclude.
  intuition discriminate.
Qed.

Lemma flag_if_bit ci want k j :
  N.testbit (flag_if ci want (N.shiftl 1 k)) j = (ci =? want)%Z && (k =? j).
Proof.
  unfold flag_if. destruct (ci =? want)%Z; cbv beta iota.
  - rewrite N.shiftl_1_l, N.pow2_bits_eqb. reflexivity.
  - apply N.bits_0.
Qed.

Lemma mask_of_bit (r1 : ByState.CharRecipe) want j :
  N.testbit (mask_of r1 want) j =
  ((ByState.Uppers r1 =? want)%Z && (0 =? j)) ||
  (((ByState.Lowers r1 =? want)%Z && (1 =? j)) ||
  (((ByState.Digits r1 =? want)%Z && (2 =? j)) ||
  (((ByState.Symbols r1 =? want)%Z && (3 =? j)) ||
   ((ByState.Ambiguous r1 =? want)%Z && (4 =? j))))).
Proof.
  unfold mask_of, ByFlag.Uppers, ByFlag.Lowers, ByFlag.Digits,
    ByFlag.Symbols, ByFlag.Ambiguous.
  now rewrite !N.lor_spec, !flag_if_bit.
Qed.

(** Every per-class-state recipe has a bit-mask counterpart. *)
Lemma encode_corresponds (r1 : ByState.CharRecipe) :
  corresponds r1 (encode r1).
Proof.
  unfold corresponds, class_matches, encode.
  cbn [ByFlag.Allow ByFlag.Require_ ByFlag.Exclude ByFlag.Length
       ByFlag.IncludeExtra ByFlag.ExcludeExtra].
  unfold ByFlag.Uppers, ByFlag.Lowers, ByFlag.Digits, ByFlag.Symbols,
    ByFlag.Ambiguous, ByFlag.WhiteSpace.
  rewrite !RequireFacts.has_bit, !mask_of_bit.
  cbn [N.eqb Pos.eqb].
  repeat split;
    rewrite ?andb_true_r, ?andb_false_r, ?orb_false_r; reflexivity.
Qed.

End EncodingFacts.

(** ** Logarithms *)

Lemma ln_2_pos : (0 < ln 2)%R.
Proof. rewrite <- ln_1. apply ln_increasing; lra. Qed.

Lemma log2_nonneg (x : R) : (1 <= x)%R -> (0 <= log2 x)%R.
Proof.
  intros H. unfold log2. apply Rle_mult_inv_pos; [| apply ln_2_pos].
  destruct H as [H | <-].
  - rewrite <- ln_1. left. apply ln_increasing; lra.
  - rewrite ln_1. lra.
Qed.




(** ** Rounding to [float32] *)


Lemma round_half_even_nonneg (q : R) :
  (0 <= q)%R -> (0 <= round_half_even q)%Z.
Proof.
  intros H.
  assert (Hf : (0 <= Zfloor q)%Z) by (apply Zfloor_lub; exact H).
  unfold round_half_even.
  destruct (Rlt_dec _ _); [lia |]. destruct (Rlt_dec _ _); [lia |].
  destruct (Z.even _); lia.
Qed.


(** Rounding keeps the sign of what is not negative. *)
Lemma round32_nonneg (x : R) : (0 <= x)%R -> float_nonneg (round32 x).
Proof.
  intros H. unfold round32.
  destruct (Req_dec_T x 0); [simpl; lra |].
  set (ulp := powerRZ 2 (Z.max (binade x) (-126) - 23)).
  assert (Hu : (0 < ulp)%R) by (apply powerRZ_lt; lra).
  assert (Hq : (0 <= x / ulp)%R).
  { apply Rmult_le_pos; [exact H |]. left. now apply Rinv_0_lt_compat. }
  pose proof (round_half_even_nonneg _ Hq) as Hr.
  apply IZR_le in Hr.
  assert (Hy : (0 <= IZR (round_half_even (x / ulp)) * ulp)%R)
    by (apply Rmult_le_pos; lra).
  cbv zeta.
  destruct (Rle_dec _ _); [exact I |].
  destruct (Rle_dec _ _) as [Hn | _]; [| exact Hy].
  exfalso. assert (0 < powerRZ 2 128)%R by (apply powerRZ_lt; lra).
  fold ulp in Hn. lra.
Qed.




(** ** Entropy values and single-character alphabets *)

(** Over a non-empty alphabet [entropySimple] is the finite product. *)
Lemma entropySimple_finite (length nelem : Z) :
  (1 <= nelem)%Z ->
  entropySimple length nelem = Fin (IZR length * log2 (IZR nelem)).
Proof.
  intros H. unfold entropySimple.
  destruct (Z.ltb_spec nelem 0); [lia |].
  now destruct (Z.eqb_spec nelem 0); [lia |].
Qed.

Lemma entropySimple_nonneg (length nelem : Z) :
  (0 <= length)%Z -> (1 <= nelem)%Z ->
  float_nonneg (float32 (entropySimple length nelem)).
Proof.
  intros HL Hn. rewrite entropySimple_finite by assumption.
  cbn [float32]. apply round32_nonneg. apply Rmult_le_pos.
  - now apply (IZR_le 0).
  - apply log2_nonneg. now apply (IZR_le 1).
Qed.



(** The facts about the tokens that follow from their being drawn. *)
Lemma drawn_tokens_facts (chars : list gostring) (idxs : list N) :
  Forall (fun i => i < N.of_nat (List.length chars)) idxs ->
  let toks :=
    map (fun i => mkToken (nth (N.to_nat i) chars []) AtomTokenType) idxs in
  List.length toks = List.length idxs /\
  Forall (fun t => Type_ t = AtomTokenType /\ In (Value t) chars) toks.
Proof.
  intros H toks. subst toks. split; [apply length_map |].
  apply Forall_map. apply Forall_impl with (2 := H).
  intros i Hi. simpl. split; [reflexivity |].
  apply nth_In. lia.
Qed.


Lemma has_zero (f : ByFlag.CTFlag) (ct : gostring) :
  In (f, ct) ByFlag.charTypeByFlag -> ByFlag.has 0 f = false.
Proof.
  unfold ByFlag.charTypeByFlag. cbn [In].
  intros [E | [E | [E | [E | [E | [E | []]]]]]]; injection E as <- _;
    reflexivity.
Qed.


(** * The claims *)

(** C2.  Exclusion always wins: whatever the order of the map iteration,
    every entry of the resolved alphabet is a single character that comes
    from [IncludeExtra] or from a class in state Allow or Require, and that
    is neither in [ExcludeExtra] nor in any class in state Exclude; in both
    encodings of the recipe. *)
Theorem exclusion_always_wins
    (o1 : list (string * gostring)) (r1 : ByState.CharRecipe)
    (o2 : list (ByFlag.CTFlag * gostring)) (r2 : ByFlag.CharRecipe) :
  Permutation o1 ByState.fieldNamesAlphabets ->
  Permutation o2 ByFlag.charTypeByFlag ->
  (exists chars, ByState.buildCharacterList o1 r1 = Some chars /\
     forall x, In x chars ->
       exists c, x = [c] /\
         (In c (ByState.IncludeExtra r1) \/ ByState.allowed r1 c) /\
         ~ In c (ByState.ExcludeExtra r1) /\ ~ ByState.excluded r1 c) /\
  (forall x, In x (ByFlag.buildCharacterList o2 r2) ->
     exists c, x = [c] /\
       (In c (ByFlag.IncludeExtra r2) \/ ByFlag.allowed r2 c) /\
       ~ In c (ByFlag.ExcludeExtra r2) /\ ~ ByFlag.excluded r2 c).
Proof.
  intros P1 P2. split.
  - destruct (ByStateFacts.state_buildCharacterList_spec o1 r1 P1)
      as (chars & E & _ & Hin).
    exists chars. split; [exact E |]. intros x Hx. now apply Hin.
  - destruct (ByFlagFacts.flag_buildCharacterList_spec o2 r2 P2) as (_ & Hin).
    intros x Hx. now apply Hin.
Qed.

Lemma exclusion_always_wins_witness :
  Permutation ByState.fieldNamesAlphabets ByState.fieldNamesAlphabets /\
  Permutation ByFlag.charTypeByFlag ByFlag.charTypeByFlag /\
  (exists chars,
     ByState.buildCharacterList ByState.fieldNamesAlphabets
       state_overlap = Some chars /\
     forall x, In x chars ->
       exists c, x = [c] /\
         (In c (ByState.IncludeExtra state_overlap) \/
          ByState.allowed state_overlap c) /\
         ~ In c (ByState.ExcludeExtra state_overlap) /\
         ~ ByState.excluded state_overlap c) /\
  (forall x,
     In x (ByFlag.buildCharacterList ByFlag.charTypeByFlag
             flag_overlap) ->
     exists c, x = [c] /\
       (In c (ByFlag.IncludeExtra flag_overlap) \/
        ByFlag.allowed flag_overlap c) /\
       ~ In c (ByFlag.ExcludeExtra flag_overlap) /\
       ~ ByFlag.excluded flag_overlap c).
Proof.
  split; [apply Permutation_refl |].
  split; [apply Permutation_refl |].
  apply (exclusion_always_wins ByState.fieldNamesAlphabets
           state_overlap ByFlag.charTypeByFlag
           flag_overlap); apply Permutation_refl.
Defined.

(** C5.  The resolved alphabet has no duplicates: whatever the order of the
    map iteration, however the classes overlap and whatever [IncludeExtra]
    repeats, no entry occurs twice; in both encodings of the recipe. *)
Theorem alphabet_has_no_duplicates
    (o1 : list (string * gostring)) (r1 : ByState.CharRecipe)
    (o2 : list (ByFlag.CTFlag * gostring)) (r2 : ByFlag.CharRecipe) :
  Permutation o1 ByState.fieldNamesAlphabets ->
  Permutation o2 ByFlag.charTypeByFlag ->
  (exists chars, ByState.buildCharacterList o1 r1 = Some chars /\
     NoDup chars) /\
  NoDup (ByFlag.buildCharacterList o2 r2).
Proof.
  intros P1 P2. split.
  - destruct (ByStateFacts.state_buildCharacterList_spec o1 r1 P1)
      as (chars & E & Hnd & _).
    exists chars. now split.
  - now destruct (ByFlagFacts.flag_buildCharacterList_spec o2 r2 P2).
Qed.

Lemma alphabet_has_no_duplicates_witness :
  Permutation ByState.fieldNamesAlphabets ByState.fieldNamesAlphabets /\
  Permutation ByFlag.charTypeByFlag ByFlag.charTypeByFlag /\
  (exists chars,
     ByState.buildCharacterList ByState.fieldNamesAlphabets state_overlap
       = Some chars /\ NoDup chars) /\
  NoDup (ByFlag.buildCharacterList ByFlag.charTypeByFlag flag_overlap).
Proof.
  split; [apply Permutation_refl |].
  split; [apply Permutation_refl |].
  apply (alphabet_has_no_duplicates ByState.fieldNamesAlphabets state_overlap
           ByFlag.charTypeByFlag flag_overlap); apply Permutation_refl.
Defined.

(** No class that has a field in the per-class-state recipe contains the
    space or the tab. *)
Lemma whitespace_in_no_field_class (c : char) (fname : string) (s : gostring) :
  In c CTWhiteSpace -> In (fname, s) ByState.fieldNamesAlphabets ->
  ~ In c s.
Proof.
  intros Hc Hs. apply contains_false.
  unfold ByState.fieldNamesAlphabets in Hs. cbn [In] in Hs.
  unfold CTWhiteSpace in Hc. cbn [In] in Hc.
  destruct Hc as [<- | [<- | []]];
    destruct Hs as [E | [E | [E | [E | [E | []]]]]];
    injection E as _ <-; vm_compute; reflexivity.
Qed.

(** C10.  The per-class-state recipe has no field for white space
    ([FieldByName] finds none, and the map iterated by the resolver names
    exactly Uppers, Lowers, Digits, Symbols and Ambiguous); so the space and
    the tab are in the resolved alphabet exactly when they occur in
    [IncludeExtra] and not in [ExcludeExtra]. *)
Theorem whitespace_only_through_extras
    (order : list (string * gostring)) (r : ByState.CharRecipe) (c : char) :
  Permutation order ByState.fieldNamesAlphabets ->
  In c CTWhiteSpace ->
  ByState.FieldByName r "WhiteSpace" = None /\
  map fst ByState.fieldNamesAlphabets =
    ["Uppers"; "Lowers"; "Digits"; "Symbols"; "Ambiguous"]%string /\
  exists chars, ByState.buildCharacterList order r = Some chars /\
    (In [c] chars <->
     In c (ByState.IncludeExtra r) /\ ~ In c (ByState.ExcludeExtra r)).
Proof.
  intros P Hc. split; [reflexivity |]. split; [reflexivity |].
  destruct (ByStateFacts.state_buildCharacterList_spec order r P)
    as (chars & E & _ & Hin).
  exists chars. split; [exact E |].
  assert (Ha : ~ ByState.allowed r c).
  { intros (n & s & f & Hs & _ & _ & Hcs).
    exact (whitespace_in_no_field_class c n s Hc Hs Hcs). }
  assert (He : ~ ByState.excluded r c).
  { intros (n & s & Hs & _ & Hcs).
    exact (whitespace_in_no_field_class c n s Hc Hs Hcs). }
  rewrite Hin. split.
  - intros (d & Ed & [Hi | Hal] & Hx & _); injection Ed as <-; tauto.
  - intros [Hi Hx]. exists c. tauto.
Qed.

Lemma whitespace_only_through_extras_witness :
  Permutation ByState.fieldNamesAlphabets ByState.fieldNamesAlphabets /\
  In (char_of_N 32) CTWhiteSpace /\
  ByState.FieldByName state_overlap "WhiteSpace" = None /\
  map fst ByState.fieldNamesAlphabets =
    ["Uppers"; "Lowers"; "Digits"; "Symbols"; "Ambiguous"]%string /\
  exists chars,
    ByState.buildCharacterList ByState.fieldNamesAlphabets state_overlap
      = Some chars /\
    (In [char_of_N 32] chars <->
     In (char_of_N 32) (ByState.IncludeExtra state_overlap) /\
     ~ In (char_of_N 32) (ByState.ExcludeExtra state_overlap)).
Proof.
  split; [apply Permutation_refl |].
  split; [simpl; left; reflexivity |].
  apply (whitespace_only_through_extras ByState.fieldNamesAlphabets
           state_overlap (char_of_N 32)).
  - apply Permutation_refl.
  - simpl; left; reflexivity.
Defined.

(** C9.  A recipe whose length is below 1 makes [Generate] return the
    length error and no password, before the alphabet is resolved and
    before anything is drawn; in both encodings of the recipe. *)
Theorem Generate_rejects_short_length
    (mem : Z) (rnd : Sampler) (s : RandState rnd)
    (o1 o1' : list (string * gostring)) (r1 : ByState.CharRecipe)
    (o2 o2' : list (ByFlag.CTFlag * gostring)) (r2 : ByFlag.CharRecipe) :
  (ByState.Length r1 < 1)%Z ->
  (ByFlag.Length r2 < 1)%Z ->
  ByState.Generate mem rnd o1 o1' r1 s
    = Failed (InvalidLength (ByState.Length r1)) /\
  ByFlag.Generate mem rnd o2 o2' r2 s
    = Failed (InvalidLength (ByFlag.Length r2)).
Proof.
  intros H1 H2. split.
  - now apply ByStateGenerate.state_Generate_short.
  - now apply ByFlagGenerate.flag_Generate_short.
Qed.

Lemma Generate_rejects_short_length_witness :
  (ByState.Length (ByState.NewCharRecipe 0) < 1)%Z /\
  (ByFlag.Length (ByFlag.NewCharRecipe (-3)) < 1)%Z /\
  ByState.Generate 1024 seeded ByState.fieldNamesAlphabets
    ByState.fieldNamesAlphabets (ByState.NewCharRecipe 0) 7
    = Failed (InvalidLength 0) /\
  ByFlag.Generate 1024 seeded ByFlag.charTypeByFlag ByFlag.charTypeByFlag
    (ByFlag.NewCharRecipe (-3)) 7
    = Failed (InvalidLength (-3)).
Proof.
  split; [simpl; lia |]. split; [simpl; lia |].
  apply (Generate_rejects_short_length 1024 seeded 7
           ByState.fieldNamesAlphabets ByState.fieldNamesAlphabets
           (ByState.NewCharRecipe 0)
           ByFlag.charTypeByFlag ByFlag.charTypeByFlag
           (ByFlag.NewCharRecipe (-3))); simpl; lia.
Defined.

(** C6.  Require is Allow for alphabet membership: setting a class that is
    in state Require to Allow (in the bit-mask recipe: moving its flag from
    the Require mask to the Allow mask) leaves the set of characters of the
    resolved alphabet unchanged, whatever the orders of the map
    iterations; under one and the same order the per-class-state resolver
    even returns the same list. *)
Theorem require_to_allow_same_alphabet
    (o1 o1' : list (string * gostring)) (r1 : ByState.CharRecipe)
    (fname : string)
    (o2 o2' : list (ByFlag.CTFlag * gostring)) (r2 : ByFlag.CharRecipe)
    (f : ByFlag.CTFlag) (ct : gostring) :
  Permutation o1 ByState.fieldNamesAlphabets ->
  Permutation o1' ByState.fieldNamesAlphabets ->
  Permutation o2 ByFlag.charTypeByFlag ->
  Permutation o2' ByFlag.charTypeByFlag ->
  ByState.FieldByName r1 fname = Some ByState.CIRequire ->
  In (f, ct) ByFlag.charTypeByFlag ->
  ByFlag.has (ByFlag.Require_ r2) f = true ->
  (ByState.FieldByName (ByState.with_field r1 fname ByState.CIAllow) fname
     = Some ByState.CIAllow /\
   ByState.buildCharacterList o1
     (ByState.with_field r1 fname ByState.CIAllow)
     = ByState.buildCharacterList o1 r1 /\
   exists chars chars',
     ByState.buildCharacterList o1 r1 = Some chars /\
     ByState.buildCharacterList o1'
       (ByState.with_field r1 fname ByState.CIAllow) = Some chars' /\
     forall x, In x chars <-> In x chars') /\
  (ByFlag.has (ByFlag.Allow (ByFlag.require_to_allow r2 f)) f = true /\
   ByFlag.has (ByFlag.Require_ (ByFlag.require_to_allow r2 f)) f = false /\
   forall x, In x (ByFlag.buildCharacterList o2 r2) <->
             In x (ByFlag.buildCharacterList o2'
                     (ByFlag.require_to_allow r2 f))).
Proof.
  intros P1 P1' P2 P2' Hreq Hf Hr. split; [split; [| split] |].
  - unfold ByState.FieldByName in *.
    destruct (String.eqb_spec fname "Uppers") as [-> | _]; [reflexivity |].
    destruct (String.eqb_spec fname "Lowers") as [-> | _]; [reflexivity |].
    destruct (String.eqb_spec fname "Digits") as [-> | _]; [reflexivity |].
    destruct (String.eqb_spec fname "Symbols") as [-> | _]; [reflexivity |].
    destruct (String.eqb_spec fname "Ambiguous") as [-> | _];
      [reflexivity | discriminate].
  - unfold ByState.buildCharacterList.
    now rewrite (RequireFacts.with_field_range r1 fname Hreq).
  - apply RequireFacts.state_same_alphabet; try assumption; try reflexivity.
    + intros c. now apply RequireFacts.with_field_allowed.
    + intros c. now apply RequireFacts.with_field_excluded.
  - destruct (RequireFacts.flag_is_bit f ct Hf) as [k ->].
    cbn [ByFlag.require_to_allow ByFlag.Allow ByFlag.Require_].
    rewrite RequireFacts.has_lor_bit, RequireFacts.has_ldiff_bit.
    rewrite N.eqb_refl, orb_true_r, andb_false_r.
    split; [reflexivity |]. split; [reflexivity |].
    apply RequireFacts.flag_same_alphabet; try assumption; try reflexivity.
    intros c. now apply RequireFacts.require_to_allow_allowed with (ct0 := ct).
Qed.

Lemma require_to_allow_same_alphabet_witness :
  Permutation ByState.fieldNamesAlphabets ByState.fieldNamesAlphabets /\
  Permutation ByFlag.charTypeByFlag ByFlag.charTypeByFlag /\
  ByState.FieldByName state_overlap "Digits" = Some ByState.CIRequire /\
  In (ByFlag.Digits, CTDigits) ByFlag.charTypeByFlag /\
  ByFlag.has (ByFlag.Require_ flag_overlap) ByFlag.Digits = true /\
  (ByState.FieldByName
     (ByState.with_field state_overlap "Digits" ByState.CIAllow) "Digits"
     = Some ByState.CIAllow /\
   ByState.buildCharacterList ByState.fieldNamesAlphabets
     (ByState.with_field state_overlap "Digits" ByState.CIAllow)
     = ByState.buildCharacterList ByState.fieldNamesAlphabets state_overlap /\
   exists chars chars',
     ByState.buildCharacterList ByState.fieldNamesAlphabets state_overlap
       = Some chars /\
     ByState.buildCharacterList ByState.fieldNamesAlphabets
       (ByState.with_field state_overlap "Digits" ByState.CIAllow)
       = Some chars' /\
     forall x, In x chars <-> In x chars') /\
  (ByFlag.has
     (ByFlag.Allow (ByFlag.require_to_allow flag_overlap ByFlag.Digits))
     ByFlag.Digits = true /\
   ByFlag.has
     (ByFlag.Require_ (ByFlag.require_to_allow flag_overlap ByFlag.Digits))
     ByFlag.Digits = false /\
   forall x,
     In x (ByFlag.buildCharacterList ByFlag.charTypeByFlag flag_overlap) <->
     In x (ByFlag.buildCharacterList ByFlag.charTypeByFlag
             (ByFlag.require_to_allow flag_overlap ByFlag.Digits))).
Proof.
  split; [apply Permutation_refl |].
  split; [apply Permutation_refl |].
  split; [reflexivity |].
  split; [simpl; tauto |].
  split; [reflexivity |].
  apply (require_to_allow_same_alphabet
           ByState.fieldNamesAlphabets ByState.fieldNamesAlphabets
           state_overlap "Digits"
           ByFlag.charTypeByFlag ByFlag.charTypeByFlag
           flag_overlap ByFlag.Digits CTDigits);
    try apply Permutation_refl; try reflexivity.
  simpl; tauto.
Defined.

(** C7.  The two encodings resolve the same set: when a per-class-state
    recipe and a bit-mask recipe correspond (equal Length, IncludeExtra and
    ExcludeExtra, every class flagged in exactly the mask of its state), the
    alphabets the two [buildCharacterList] resolve hold the same characters,
    whatever the orders of the map iterations. *)
Theorem encodings_resolve_same_set
    (o1 : list (string * gostring)) (r1 : ByState.CharRecipe)
    (o2 : list (ByFlag.CTFlag * gostring)) (r2 : ByFlag.CharRecipe) :
  Permutation o1 ByState.fieldNamesAlphabets ->
  Permutation o2 ByFlag.charTypeByFlag ->
  corresponds r1 r2 ->
  exists chars, ByState.buildCharacterList o1 r1 = Some chars /\
    forall x, In x chars <-> In x (ByFlag.buildCharacterList o2 r2).
Proof.
  intros P1 P2 Hc.
  destruct (ByStateFacts.state_buildCharacterList_spec o1 r1 P1)
    as (chars & E & _ & Hin).
  destruct (ByFlagFacts.flag_buildCharacterList_spec o2 r2 P2) as (_ & Hin2).
  exists chars. split; [exact E |].
  intros x. rewrite Hin, Hin2.
  pose proof Hc as (_ & Hi & He & _).
  rewrite Hi, He.
  split; intros (c & Ex & H1 & H2 & H3); exists c; (split; [exact Ex |]);
    rewrite ?(EncodingFacts.corresponds_allowed r1 r2 c Hc),
            ?(EncodingFacts.corresponds_excluded r1 r2 c Hc) in *; tauto.
Qed.

Lemma encodings_resolve_same_set_witness :
  Permutation ByState.fieldNamesAlphabets ByState.fieldNamesAlphabets /\
  Permutation ByFlag.charTypeByFlag ByFlag.charTypeByFlag /\
  corresponds state_overlap flag_overlap /\
  exists chars,
    ByState.buildCharacterList ByState.fieldNamesAlphabets state_overlap
      = Some chars /\
    forall x, In x chars <->
      In x (ByFlag.buildCharacterList ByFlag.charTypeByFlag flag_overlap).
Proof.
  split; [apply Permutation_refl |].
  split; [apply Permutation_refl |].
  split; [repeat split; reflexivity |].
  apply (encodings_resolve_same_set ByState.fieldNamesAlphabets state_overlap
           ByFlag.charTypeByFlag flag_overlap);
    try apply Permutation_refl.
  repeat split; reflexivity.
Defined.

Section Scenarios.

Variable mem : Z.
Variable rnd : Sampler.
Hypothesis Int31n_range : sampler_contract rnd.

Lemma state_Generate_draws o o' (r : ByState.CharRecipe) chars
    (s : RandState rnd) :
  Permutation o ByState.fieldNamesAlphabets ->
  Permutation o' ByState.fieldNamesAlphabets ->
  (1 <= ByState.Length r <= max_len mem)%Z ->
  ByState.buildCharacterList o r = Some chars ->
  chars <> [] ->
  draws_password rnd s chars (ByState.Length r)
    (ByState.Generate mem rnd o o' r s).
Proof.
  intros P P' HL E Hne.
  destruct (ByStateGenerate.state_Generate_returns mem rnd o o' r s chars
              Int31n_range P P' HL E Hne)
    as (toks & s' & idxs & Hg & Hd & Hl & Hall & Ht).
  destruct (drawn_tokens_facts chars idxs Hall) as [Hlen Hfa].
  exists (mkPassword toks
            (float32
               (entropySimple (ByState.Length r)
                  (Z.of_nat (List.length chars))))),
    s', idxs.
  cbn [Tokens Entropy]. subst toks.
  repeat split; try assumption. now rewrite Hlen.
Qed.

Lemma flag_Generate_draws o o' (r : ByFlag.CharRecipe) (s : RandState rnd) :
  Permutation o ByFlag.charTypeByFlag ->
  Permutation o' ByFlag.charTypeByFlag ->
  (1 <= ByFlag.Length r <= max_len mem)%Z ->
  ByFlag.buildCharacterList o r <> [] ->
  draws_password rnd s (ByFlag.buildCharacterList o r) (ByFlag.Length r)
    (ByFlag.Generate mem rnd o o' r s).
Proof.
  intros P P' HL Hne.
  destruct (ByFlagGenerate.flag_Generate_returns mem rnd o o' r s
              Int31n_range P P' HL Hne)
    as (toks & s' & idxs & Hg & Hd & Hl & Hall & Ht).
  destruct (drawn_tokens_facts _ idxs Hall) as [Hlen Hfa].
  exists (mkPassword toks
            (float32
               (entropySimple (ByFlag.Length r)
                  (Z.of_nat
                     (List.length (ByFlag.buildCharacterList o r)))))),
    s', idxs.
  cbn [Tokens Entropy]. subst toks.
  repeat split; try assumption. now rewrite Hlen.
Qed.


End Scenarios.





(** ** Calls evaluated step by step *)

Lemma state_Generate_eq mem rnd o o' (r : ByState.CharRecipe) s chars toks
    s' e :
  (1 <= ByState.Length r <= max_len mem)%Z ->
  ByState.buildCharacterList o r = Some chars ->
  draw_tokens rnd chars (Z.to_nat (ByState.Length r)) s = Some (toks, s') ->
  ByState.Entropy o' r = Some e ->
  ByState.Generate mem rnd o o' r s = Returned (mkPassword toks e, s').
Proof.
  intros HL Hb Hd He. unfold ByState.Generate.
  destruct (Z.ltb_spec (ByState.Length r) 1); [lia |].
  rewrite Hb, make_Tokens_true by lia. now rewrite Hd, He.
Qed.

Lemma flag_Generate_eq mem rnd o o' (r : ByFlag.CharRecipe) s toks s' :
  (1 <= ByFlag.Length r <= max_len mem)%Z ->
  draw_tokens rnd (ByFlag.buildCharacterList o r)
    (Z.to_nat (ByFlag.Length r)) s = Some (toks, s') ->
  ByFlag.Generate mem rnd o o' r s
  = Returned (mkPassword toks (ByFlag.Entropy o' r), s').
Proof.
  intros HL Hd. unfold ByFlag.Generate.
  destruct (Z.ltb_spec (ByFlag.Length r) 1); [lia |].
  rewrite make_Tokens_true by lia. now rewrite Hd.
Qed.

Lemma state_Entropy_eq o (r : ByState.CharRecipe) chars :
  ByState.buildCharacterList o r = Some chars ->
  ByState.Entropy o r =
  Some (float32
          (entropySimple (ByState.Length r)
             (Z.of_nat (List.length chars)))).
Proof. intros H. unfold ByState.Entropy. now rewrite H. Qed.

(** The alphabets of the example recipes, in the order of the literals. *)
Example state_require_digits_alphabet :
  ByState.buildCharacterList ByState.fieldNamesAlphabets state_require_digits
  = Some (Split (lit "abcdefghijklmnopqrstuvwxyz0123456789")).
Proof. vm_compute. reflexivity. Qed.

Example flag_require_digits_alphabet :
  ByFlag.buildCharacterList ByFlag.charTypeByFlag flag_require_digits
  = Split (lit "abcdefghijklmnopqrstuvwxyz0123456789").
Proof. vm_compute. reflexivity. Qed.

Example state_digits_struck_alphabet :
  ByState.buildCharacterList ByState.fieldNamesAlphabets state_digits_struck
  = Some [].
Proof. vm_compute. reflexivity. Qed.

Example flag_digits_struck_alphabet :
  ByFlag.buildCharacterList ByFlag.charTypeByFlag flag_digits_struck = [].
Proof. vm_compute. reflexivity. Qed.


(** The default recipe: 26 + 26 + 10 + 19 characters less the 7 ambiguous
    ones. *)
Example NewCharRecipe_alphabet_size :
  option_map (@List.length gostring)
    (ByState.buildCharacterList ByState.fieldNamesAlphabets
       (ByState.NewCharRecipe 8)) = Some 74%nat /\
  List.length
    (ByFlag.buildCharacterList ByFlag.charTypeByFlag
       (ByFlag.NewCharRecipe 8)) = 74%nat.
Proof. split; vm_compute; reflexivity. Qed.


(** C1, the claim as stated fails.  With digits allowed and every digit
    struck out again the resolved alphabet is empty, yet [Generate] does not
    return an error: the first draw indexes an empty slice and the call
    panics; and [Entropy], whose only result is a number, returns
    [float32 (entropySimple 1 0)], minus infinity. *)
Lemma empty_alphabet_is_no_typed_error :
  (ByState.buildCharacterList ByState.fieldNamesAlphabets state_digits_struck
     = Some [] /\
   ByState.Generate 1024 seeded ByState.fieldNamesAlphabets
     ByState.fieldNamesAlphabets state_digits_struck 0 = Panicked /\
   ByState.Entropy ByState.fieldNamesAlphabets state_digits_struck
     = Some (float32 (entropySimple 1 0)) /\
   float32 (entropySimple 1 0) = NegInf) /\
  (ByFlag.buildCharacterList ByFlag.charTypeByFlag flag_digits_struck = [] /\
   ByFlag.Generate 1024 seeded ByFlag.charTypeByFlag ByFlag.charTypeByFlag
     flag_digits_struck 0 = Panicked /\
   ByFlag.Entropy ByFlag.charTypeByFlag flag_digits_struck
     = float32 (entropySimple 1 0)).
Proof.
  split; split; try exact state_digits_struck_alphabet;
    try exact flag_digits_struck_alphabet; split.
  - apply ByStateGenerate.state_Generate_empty;
      [simpl; lia | exact state_digits_struck_alphabet].
  - split; [| reflexivity].
    now rewrite (state_Entropy_eq _ _ _ state_digits_struck_alphabet).
  - apply ByFlagGenerate.flag_Generate_empty;
      [simpl; lia | exact flag_digits_struck_alphabet].
  - unfold ByFlag.Entropy. now rewrite flag_digits_struck_alphabet.
Qed.

(** C1, as amended.  When the resolved alphabet is empty [Generate] returns
    no password, and for a length below 1 it fails with the length error
    before the alphabet is looked at; [Entropy] has no error result and
    returns [float32 (entropySimple Length 0)]; in both encodings. *)
Theorem empty_alphabet_yields_no_password
    (mem : Z) (rnd : Sampler) (s : RandState rnd)
    (o1 o1' : list (string * gostring)) (r1 : ByState.CharRecipe)
    (o2 o2' : list (ByFlag.CTFlag * gostring)) (r2 : ByFlag.CharRecipe) :
  ByState.buildCharacterList o1 r1 = Some [] ->
  ByFlag.buildCharacterList o2 r2 = [] ->
  ((forall ps, ByState.Generate mem rnd o1 o1' r1 s <> Returned ps) /\
   ((ByState.Length r1 < 1)%Z ->
    ByState.Generate mem rnd o1 o1' r1 s
      = Failed (InvalidLength (ByState.Length r1))) /\
   ByState.Entropy o1 r1
     = Some (float32 (entropySimple (ByState.Length r1) 0))) /\
  ((forall ps, ByFlag.Generate mem rnd o2 o2' r2 s <> Returned ps) /\
   ((ByFlag.Length r2 < 1)%Z ->
    ByFlag.Generate mem rnd o2 o2' r2 s
      = Failed (InvalidLength (ByFlag.Length r2))) /\
   ByFlag.Entropy o2 r2 = float32 (entropySimple (ByFlag.Length r2) 0)).
Proof.
  intros E1 E2. split.
  - split; [| split].
    + intros ps. destruct (Z.lt_ge_cases (ByState.Length r1) 1) as [H | H].
      * now rewrite ByStateGenerate.state_Generate_short.
      * now rewrite ByStateGenerate.state_Generate_empty.
    + apply ByStateGenerate.state_Generate_short.
    + now rewrite (state_Entropy_eq _ _ _ E1).
  - split; [| split].
    + intros ps. destruct (Z.lt_ge_cases (ByFlag.Length r2) 1) as [H | H].
      * now rewrite ByFlagGenerate.flag_Generate_short.
      * now rewrite ByFlagGenerate.flag_Generate_empty.
    + apply ByFlagGenerate.flag_Generate_short.
    + unfold ByFlag.Entropy. now rewrite E2.
Qed.

Lemma empty_alphabet_yields_no_password_witness :
  ByState.buildCharacterList ByState.fieldNamesAlphabets state_digits_struck
    = Some [] /\
  ByFlag.buildCharacterList ByFlag.charTypeByFlag flag_digits_struck = [] /\
  ((forall ps,
      ByState.Generate 1024 seeded ByState.fieldNamesAlphabets
        ByState.fieldNamesAlphabets state_digits_struck 0 <> Returned ps) /\
   ((ByState.Length state_digits_struck < 1)%Z ->
    ByState.Generate 1024 seeded ByState.fieldNamesAlphabets
      ByState.fieldNamesAlphabets state_digits_struck 0
      = Failed (InvalidLength (ByState.Length state_digits_struck))) /\
   ByState.Entropy ByState.fieldNamesAlphabets state_digits_struck
     = Some (float32
               (entropySimple (ByState.Length state_digits_struck) 0))) /\
  ((forall ps,
      ByFlag.Generate 1024 seeded ByFlag.charTypeByFlag ByFlag.charTypeByFlag
        flag_digits_struck 0 <> Returned ps) /\
   ((ByFlag.Length flag_digits_struck < 1)%Z ->
    ByFlag.Generate 1024 seeded ByFlag.charTypeByFlag ByFlag.charTypeByFlag
      flag_digits_struck 0
      = Failed (InvalidLength (ByFlag.Length flag_digits_struck))) /\
   ByFlag.Entropy ByFlag.charTypeByFlag flag_digits_struck
     = float32 (entropySimple (ByFlag.Length flag_digits_struck) 0)).
Proof.
  split; [vm_compute; reflexivity |].
  split; [vm_compute; reflexivity |].
  apply (empty_alphabet_yields_no_password 1024 seeded 0
           ByState.fieldNamesAlphabets ByState.fieldNamesAlphabets
           state_digits_struck
           ByFlag.charTypeByFlag ByFlag.charTypeByFlag flag_digits_struck);
    vm_compute; reflexivity.
Defined.





(** C4, the code at a failing input.  Length 1, lower-case letters allowed
    and digits required, the sampler seeded so that the first index is 0:
    [Generate] returns the single atom ["a"], and ["a"] is no digit; in both
    encodings. *)
Theorem Require_is_not_enforced :
  ByState.Generate 1024 seeded ByState.fieldNamesAlphabets
    ByState.fieldNamesAlphabets state_require_digits 0
  = Returned (mkPassword [mkToken (lit "a") AtomTokenType]
                (float32 (entropySimple 1 36)), 0) /\
  ByFlag.Generate 1024 seeded ByFlag.charTypeByFlag ByFlag.charTypeByFlag
    flag_require_digits 0
  = Returned (mkPassword [mkToken (lit "a") AtomTokenType]
                (float32 (entropySimple 1 36)), 0) /\
  ByState.Digits state_require_digits = ByState.CIRequire /\
  ByFlag.has (ByFlag.Require_ flag_require_digits) ByFlag.Digits = true /\
  forall c, In c (lit "a") -> ~ In c CTDigits.
Proof.
  split; [| split; [| split; [reflexivity | split; [reflexivity |]]]].
  - apply state_Generate_eq
      with (chars := Split (lit "abcdefghijklmnopqrstuvwxyz0123456789")).
    + vm_compute; split; discriminate.
    + exact state_require_digits_alphabet.
    + vm_compute; reflexivity.
    + now rewrite (state_Entropy_eq _ _ _ state_require_digits_alphabet).
  - rewrite (flag_Generate_eq 1024 seeded _ _ _ 0
               [mkToken (lit "a") AtomTokenType] 0).
    + unfold ByFlag.Entropy. now rewrite flag_require_digits_alphabet.
    + vm_compute; split; discriminate.
    + rewrite flag_require_digits_alphabet. vm_compute; reflexivity.
  - intros c Hc. apply contains_false.
    destruct Hc as [<- | []]. vm_compute; reflexivity.
Qed.

(** * Further properties of the code *)

(** ** Helper facts *)

(** Whatever the sampler does, tokens that the loop hands back are atoms
    taken from [chars], one per iteration. *)
Lemma draw_tokens_sound (rnd : Sampler) (chars : list gostring) :
  forall (k : nat) (s s' : RandState rnd) (toks : list Token),
    draw_tokens rnd chars k s = Some (toks, s') ->
    List.length toks = k /\
    Forall (fun t => Type_ t = AtomTokenType /\ In (Value t) chars) toks.
Proof.
  induction k as [| k IH]; intros s s' toks H; simpl in H.
  - injection H as <- _. split; [reflexivity | constructor].
  - destruct (Int31n rnd (uint32_of_len (List.length chars)) s)
      as [[i s1] |]; [| discriminate].
    destruct (nth_error chars (N.to_nat i)) as [c |] eqn:Ec; [| discriminate].
    destruct (draw_tokens rnd chars k s1) as [[toks1 s2] |] eqn:Ed;
      [| discriminate].
    injection H as <- _.
    destruct (IH s1 s2 toks1 Ed) as [Hl Hf].
    split; [simpl; now rewrite Hl |].
    constructor; [| assumption].
    split; [reflexivity |]. simpl. now apply nth_error_In with (N.to_nat i).
Qed.

(** Tokens of one character each spell a string of as many characters. *)
Lemma Join_single_length (toks : list Token) :
  Forall (fun t => exists c, Value t = [c]) toks ->
  List.length (Join (map Value toks)) = List.length toks.
Proof.
  induction 1 as [| t l [c Hc] _ IH]; [reflexivity |].
  unfold Join in *. cbn [map List.concat]. rewrite Hc.
  cbn [app List.length]. now rewrite IH.
Qed.

Lemma Join_single_In (toks : list Token) (c : char) :
  In c (Join (map Value toks)) -> exists t, In t toks /\ In c (Value t).
Proof.
  unfold Join. rewrite in_concat. intros (v & Hv & Hc).
  apply in_map_iff in Hv. destruct Hv as (t & <- & Ht). now exists t.
Qed.

(** What [Generate] of the per-class-state recipe returns, if it returns:
    the pieces of its body. *)
Lemma state_Generate_Returned mem rnd o o' (r : ByState.CharRecipe) s p
    s' :
  ByState.Generate mem rnd o o' r s = Returned (p, s') ->
  (1 <= ByState.Length r <= max_len mem)%Z /\
  exists chars e,
    ByState.buildCharacterList o r = Some chars /\
    draw_tokens rnd chars (Z.to_nat (ByState.Length r)) s
      = Some (Tokens p, s') /\
    ByState.Entropy o' r = Some e /\ Entropy p = e.
Proof.
  unfold ByState.Generate, make_Tokens.
  destruct (Z.ltb_spec (ByState.Length r) 1) as [HL | HL]; [discriminate |].
  destruct (ByState.buildCharacterList o r) as [chars |]; [| discriminate].
  destruct (Z.leb_spec 0 (ByState.Length r)); [| discriminate].
  destruct (Z.leb_spec (ByState.Length r) (max_len mem)) as [Hm | Hm];
    [| discriminate].
  cbn [andb].
  destruct (draw_tokens rnd chars (Z.to_nat (ByState.Length r)) s)
    as [[toks s1] |] eqn:Ed; [| discriminate].
  destruct (ByState.Entropy o' r) as [e |]; [| discriminate].
  intros E; injection E as <- <-.
  split; [lia |]. exists chars, e. repeat split; try reflexivity.
  exact Ed.
Qed.

Lemma flag_Generate_Returned mem rnd o o' (r : ByFlag.CharRecipe) s p s' :
  ByFlag.Generate mem rnd o o' r s = Returned (p, s') ->
  (1 <= ByFlag.Length r <= max_len mem)%Z /\
  draw_tokens rnd (ByFlag.buildCharacterList o r)
    (Z.to_nat (ByFlag.Length r)) s = Some (Tokens p, s') /\
  Entropy p = ByFlag.Entropy o' r.
Proof.
  unfold ByFlag.Generate, make_Tokens.
  destruct (Z.ltb_spec (ByFlag.Length r) 1) as [HL | HL]; [discriminate |].
  destruct (Z.leb_spec 0 (ByFlag.Length r)); [| discriminate].
  destruct (Z.leb_spec (ByFlag.Length r) (max_len mem)) as [Hm | Hm];
    [| discriminate].
  cbn [andb].
  destruct (draw_tokens rnd (ByFlag.buildCharacterList o r)
              (Z.to_nat (ByFlag.Length r)) s)
    as [[toks s1] |]; [| discriminate].
  intros E; injection E as <- <-.
  split; [lia |]. split; reflexivity.
Qed.

(** Two runs used to illustrate the properties below. *)
Example state_require_digits_run :
  ByState.Generate 1024 seeded ByState.fieldNamesAlphabets
    ByState.fieldNamesAlphabets state_require_digits 0
  = Returned (mkPassword [mkToken (lit "a") AtomTokenType]
                (float32 (entropySimple 1 36)), 0).
Proof.
  apply state_Generate_eq
    with (chars := Split (lit "abcdefghijklmnopqrstuvwxyz0123456789")).
  - vm_compute; split; discriminate.
  - exact state_require_digits_alphabet.
  - vm_compute; reflexivity.
  - now rewrite (state_Entropy_eq _ _ _ state_require_digits_alphabet).
Qed.

Example flag_require_digits_run :
  ByFlag.Generate 1024 seeded ByFlag.charTypeByFlag ByFlag.charTypeByFlag
    flag_require_digits 0
  = Returned (mkPassword [mkToken (lit "a") AtomTokenType]
                (float32 (entropySimple 1 36)), 0).
Proof.
  rewrite (flag_Generate_eq 1024 seeded _ _ _ 0
             [mkToken (lit "a") AtomTokenType] 0).
  - unfold ByFlag.Entropy. now rewrite flag_require_digits_alphabet.
  - vm_compute; split; discriminate.
  - rewrite flag_require_digits_alphabet. vm_compute; reflexivity.
Qed.

(** ** The password stays within the policy *)

(** X1.  Whatever the random source does: a password that [Generate] of the
    per-class-state recipe returns has exactly Length tokens and spells
    exactly Length characters; every token is an atom of one character that
    comes from [IncludeExtra] or from a class in state Allow or Require; and
    no character of the password is in [ExcludeExtra] or in a class in state
    Exclude. *)
Theorem state_password_within_policy
    (mem : Z) (rnd : Sampler) (s s' : RandState rnd)
    (o o' : list (string * gostring)) (r : ByState.CharRecipe)
    (p : Password) :
  Permutation o ByState.fieldNamesAlphabets ->
  ByState.Generate mem rnd o o' r s = Returned (p, s') ->
  List.length (Tokens p) = Z.to_nat (ByState.Length r) /\
  List.length (password_string p) = Z.to_nat (ByState.Length r) /\
  Forall (fun t => Type_ t = AtomTokenType /\
            exists c, Value t = [c] /\
              (In c (ByState.IncludeExtra r) \/ ByState.allowed r c))
         (Tokens p) /\
  forall c, In c (password_string p) ->
    ~ In c (ByState.ExcludeExtra r) /\ ~ ByState.excluded r c.
Proof.
  intros P H.
  destruct (state_Generate_Returned mem rnd o o' r s p s' H)
    as (HL & chars & e & Hb & Hd & _).
  destruct (draw_tokens_sound rnd chars _ s s' (Tokens p) Hd) as [Hlen Hf].
  destruct (ByStateFacts.state_buildCharacterList_spec o r P)
    as (chars' & Hb' & _ & Hin).
  rewrite Hb in Hb'; injection Hb' as <-.
  assert (Hpol : Forall (fun t => Type_ t = AtomTokenType /\
                   exists c, Value t = [c] /\
                     (In c (ByState.IncludeExtra r) \/ ByState.allowed r c) /\
                     ~ In c (ByState.ExcludeExtra r) /\
                     ~ ByState.excluded r c) (Tokens p)).
  { apply Forall_impl with (2 := Hf). intros t [Ht Hv]. split; [exact Ht |].
    apply Hin in Hv. exact Hv. }
  split; [exact Hlen |]. split; [| split].
  - unfold password_string. rewrite Join_single_length; [exact Hlen |].
    apply Forall_impl with (2 := Hpol).
    intros t (_ & c & Hc & _). now exists c.
  - apply Forall_impl with (2 := Hpol).
    intros t (Ht & c & Hc & Hi & _). split; [exact Ht |]. now exists c.
  - intros c Hc. apply Join_single_In in Hc. destruct Hc as (t & Ht & Hct).
    rewrite Forall_forall in Hpol.
    destruct (Hpol t Ht) as (_ & d & Hd' & _ & Hx & He).
    rewrite Hd' in Hct. destruct Hct as [<- | []]. now split.
Qed.

Lemma state_password_within_policy_witness :
  Permutation ByState.fieldNamesAlphabets ByState.fieldNamesAlphabets /\
  ByState.Generate 1024 seeded ByState.fieldNamesAlphabets
    ByState.fieldNamesAlphabets state_require_digits 0
  = Returned (mkPassword [mkToken (lit "a") AtomTokenType]
                (float32 (entropySimple 1 36)), 0) /\
  let p := mkPassword [mkToken (lit "a") AtomTokenType]
             (float32 (entropySimple 1 36)) in
  List.length (Tokens p) = Z.to_nat (ByState.Length state_require_digits) /\
  List.length (password_string p)
    = Z.to_nat (ByState.Length state_require_digits) /\
  Forall (fun t => Type_ t = AtomTokenType /\
            exists c, Value t = [c] /\
              (In c (ByState.IncludeExtra state_require_digits) \/
               ByState.allowed state_require_digits c))
         (Tokens p) /\
  forall c, In c (password_string p) ->
    ~ In c (ByState.ExcludeExtra state_require_digits) /\
    ~ ByState.excluded state_require_digits c.
Proof.
  split; [apply Permutation_refl |].
  split; [exact state_require_digits_run |].
  apply (state_password_within_policy 1024 seeded 0 0
           ByState.fieldNamesAlphabets ByState.fieldNamesAlphabets
           state_require_digits).
  - apply Permutation_refl.
  - exact state_require_digits_run.
Defined.

(** X2.  The same for the bit-mask recipe: a password that [Generate]
    returns has Length one-character atom tokens, each from [IncludeExtra]
    or from a class flagged in [Allow] or [Require], and holds no character
    of [ExcludeExtra] or of a class flagged in [Exclude], whatever the random
    source does. *)
Theorem flag_password_within_policy
    (mem : Z) (rnd : Sampler) (s s' : RandState rnd)
    (o o' : list (ByFlag.CTFlag * gostring)) (r : ByFlag.CharRecipe)
    (p : Password) :
  Permutation o ByFlag.charTypeByFlag ->
  ByFlag.Generate mem rnd o o' r s = Returned (p, s') ->
  List.length (Tokens p) = Z.to_nat (ByFlag.Length r) /\
  List.length (password_string p) = Z.to_nat (ByFlag.Length r) /\
  Forall (fun t => Type_ t = AtomTokenType /\
            exists c, Value t = [c] /\
              (In c (ByFlag.IncludeExtra r) \/ ByFlag.allowed r c))
         (Tokens p) /\
  forall c, In c (password_string p) ->
    ~ In c (ByFlag.ExcludeExtra r) /\ ~ ByFlag.excluded r c.
Proof.
  intros P H.
  destruct (flag_Generate_Returned mem rnd o o' r s p s' H) as (HL & Hd & _).
  destruct (draw_tokens_sound rnd _ _ s s' (Tokens p) Hd) as [Hlen Hf].
  destruct (ByFlagFacts.flag_buildCharacterList_spec o r P) as (_ & Hin).
  assert (Hpol : Forall (fun t => Type_ t = AtomTokenType /\
                   exists c, Value t = [c] /\
                     (In c (ByFlag.IncludeExtra r) \/ ByFlag.allowed r c) /\
                     ~ In c (ByFlag.ExcludeExtra r) /\
                     ~ ByFlag.excluded r c) (Tokens p)).
  { apply Forall_impl with (2 := Hf). intros t [Ht Hv]. split; [exact Ht |].
    apply Hin in Hv. exact Hv. }
  split; [exact Hlen |]. split; [| split].
  - unfold password_string. rewrite Join_single_length; [exact Hlen |].
    apply Forall_impl with (2 := Hpol).
    intros t (_ & c & Hc & _). now exists c.
  - apply Forall_impl with (2 := Hpol).
    intros t (Ht & c & Hc & Hi & _). split; [exact Ht |]. now exists c.
  - intros c Hc. apply Join_single_In in Hc. destruct Hc as (t & Ht & Hct).
    rewrite Forall_forall in Hpol.
    destruct (Hpol t Ht) as (_ & d & Hd' & _ & Hx & He).
    rewrite Hd' in Hct. destruct Hct as [<- | []]. now split.
Qed.

Lemma flag_password_within_policy_witness :
  Permutation ByFlag.charTypeByFlag ByFlag.charTypeByFlag /\
  ByFlag.Generate 1024 seeded ByFlag.charTypeByFlag ByFlag.charTypeByFlag
    flag_require_digits 0
  = Returned (mkPassword [mkToken (lit "a") AtomTokenType]
                (float32 (entropySimple 1 36)), 0) /\
  let p := mkPassword [mkToken (lit "a") AtomTokenType]
             (float32 (entropySimple 1 36)) in
  List.length (Tokens p) = Z.to_nat (ByFlag.Length flag_require_digits) /\
  List.length (password_string p)
    = Z.to_nat (ByFlag.Length flag_require_digits) /\
  Forall (fun t => Type_ t = AtomTokenType /\
            exists c, Value t = [c] /\
              (In c (ByFlag.IncludeExtra flag_require_digits) \/
               ByFlag.allowed flag_require_digits c))
         (Tokens p) /\
  forall c, In c (password_string p) ->
    ~ In c (ByFlag.ExcludeExtra flag_require_digits) /\
    ~ ByFlag.excluded flag_require_digits c.
Proof.
  split; [apply Permutation_refl |].
  split; [exact flag_require_digits_run |].
  apply (flag_password_within_policy 1024 seeded 0 0
           ByFlag.charTypeByFlag ByFlag.charTypeByFlag flag_require_digits).
  - apply Permutation_refl.
  - exact flag_require_digits_run.
Defined.

(** ** When [Generate] panics *)

(** X3.  With a sampler that keeps its contract, [Generate] panics exactly
    when the length is at least 1 and either the resolved alphabet is empty
    or the length is more than [make] can allocate; in both encodings of
    the recipe. *)
Theorem Generate_panics_iff
    (mem : Z) (rnd : Sampler) (s : RandState rnd)
    (o1 o1' : list (string * gostring)) (r1 : ByState.CharRecipe)
    (o2 o2' : list (ByFlag.CTFlag * gostring)) (r2 : ByFlag.CharRecipe) :
  sampler_contract rnd ->
  Permutation o1 ByState.fieldNamesAlphabets ->
  Permutation o1' ByState.fieldNamesAlphabets ->
  Permutation o2 ByFlag.charTypeByFlag ->
  Permutation o2' ByFlag.charTypeByFlag ->
  (ByState.Generate mem rnd o1 o1' r1 s = Panicked <->
   (1 <= ByState.Length r1)%Z /\
   (ByState.buildCharacterList o1 r1 = Some [] \/
    (max_len mem < ByState.Length r1)%Z)) /\
  (ByFlag.Generate mem rnd o2 o2' r2 s = Panicked <->
   (1 <= ByFlag.Length r2)%Z /\
   (ByFlag.buildCharacterList o2 r2 = [] \/
    (max_len mem < ByFlag.Length r2)%Z)).
Proof.
  intros C P1 P1' P2 P2'. split; split.
  - intros H.
    destruct (Z.lt_ge_cases (ByState.Length r1) 1) as [HL | HL].
    { rewrite ByStateGenerate.state_Generate_short in H by assumption.
      discriminate. }
    split; [exact HL |].
    destruct (Z.lt_ge_cases (max_len mem) (ByState.Length r1)) as [Hm | Hm];
      [now right | left].
    destruct (ByStateFacts.state_buildCharacterList_spec o1 r1 P1)
      as (chars & E & _).
    destruct chars as [| x l]; [exact E |]. exfalso.
    destruct (ByStateGenerate.state_Generate_returns mem rnd o1 o1' r1 s
                (x :: l) C P1 P1' (conj HL Hm) E)
      as (toks & s' & idxs & Hg & _); [discriminate |].
    rewrite Hg in H. discriminate.
  - intros [HL [E | Hm]].
    + now apply ByStateGenerate.state_Generate_empty.
    + now apply ByStateGenerate.state_Generate_too_long.
  - intros H.
    destruct (Z.lt_ge_cases (ByFlag.Length r2) 1) as [HL | HL].
    { rewrite ByFlagGenerate.flag_Generate_short in H by assumption.
      discriminate. }
    split; [exact HL |].
    destruct (Z.lt_ge_cases (max_len mem) (ByFlag.Length r2)) as [Hm | Hm];
      [now right | left].
    destruct (ByFlag.buildCharacterList o2 r2) as [| x l] eqn:E;
      [reflexivity |]. exfalso.
    destruct (ByFlagGenerate.flag_Generate_returns mem rnd o2 o2' r2 s
                C P2 P2' (conj HL Hm)) as (toks & s' & idxs & Hg & _).
    { rewrite E. discriminate. }
    rewrite Hg in H. discriminate.
  - intros [HL [E | Hm]].
    + now apply ByFlagGenerate.flag_Generate_empty.
    + now apply ByFlagGenerate.flag_Generate_too_long.
Qed.

Lemma Generate_panics_iff_witness :
  sampler_contract seeded /\
  Permutation ByState.fieldNamesAlphabets ByState.fieldNamesAlphabets /\
  Permutation ByFlag.charTypeByFlag ByFlag.charTypeByFlag /\
  (ByState.Generate 1024 seeded ByState.fieldNamesAlphabets
     ByState.fieldNamesAlphabets state_digits_struck 0 = Panicked <->
   (1 <= ByState.Length state_digits_struck)%Z /\
   (ByState.buildCharacterList ByState.fieldNamesAlphabets
      state_digits_struck = Some [] \/
    (max_len 1024 < ByState.Length state_digits_struck)%Z)) /\
  (ByFlag.Generate 1024 seeded ByFlag.charTypeByFlag ByFlag.charTypeByFlag
     flag_huge 0 = Panicked <->
   (1 <= ByFlag.Length flag_huge)%Z /\
   (ByFlag.buildCharacterList ByFlag.charTypeByFlag flag_huge = [] \/
    (max_len 1024 < ByFlag.Length flag_huge)%Z)).
Proof.
  split; [exact seeded_contract |].
  split; [apply Permutation_refl |].
  split; [apply Permutation_refl |].
  apply (Generate_panics_iff 1024 seeded 0
           ByState.fieldNamesAlphabets ByState.fieldNamesAlphabets
           state_digits_struck
           ByFlag.charTypeByFlag ByFlag.charTypeByFlag flag_huge);
    try apply Permutation_refl.
  exact seeded_contract.
Defined.

(** ** The map iteration order and the entropy *)

(** X4.  [Entropy] does not depend on the order in which the runtime
    iterates the map, and so the result of [Generate] does not depend on the
    order of the iteration inside its call of [Entropy]; in both
    encodings. *)
Theorem Entropy_ignores_iteration_order
    (mem : Z) (rnd : Sampler) (s : RandState rnd)
    (o1 o1' o1'' : list (string * gostring)) (r1 : ByState.CharRecipe)
    (o2 o2' o2'' : list (ByFlag.CTFlag * gostring)) (r2 : ByFlag.CharRecipe) :
  Permutation o1' ByState.fieldNamesAlphabets ->
  Permutation o1'' ByState.fieldNamesAlphabets ->
  Permutation o2' ByFlag.charTypeByFlag ->
  Permutation o2'' ByFlag.charTypeByFlag ->
  (ByState.Entropy o1' r1 = ByState.Entropy o1'' r1 /\
   ByState.Generate mem rnd o1 o1' r1 s
     = ByState.Generate mem rnd o1 o1'' r1 s) /\
  (ByFlag.Entropy o2' r2 = ByFlag.Entropy o2'' r2 /\
   ByFlag.Generate mem rnd o2 o2' r2 s = ByFlag.Generate mem rnd o2 o2'' r2 s).
Proof.
  intros P1' P1'' P2' P2''.
  assert (E1 : ByState.Entropy o1' r1 = ByState.Entropy o1'' r1).
  { destruct (ByStateFacts.state_buildCharacterList_spec o1' r1 P1')
      as (chars & E & _).
    rewrite (ByStateGenerate.state_Entropy_size o1' o1'' r1 chars P1' P1'' E).
    exact (state_Entropy_eq o1' r1 chars E). }
  assert (E2 : ByFlag.Entropy o2' r2 = ByFlag.Entropy o2'' r2).
  { unfold ByFlag.Entropy.
    now rewrite (ByFlagGenerate.flag_buildCharacterList_length
                   o2' o2'' r2 P2' P2''). }
  split; (split; [assumption |]).
  - unfold ByState.Generate. now rewrite E1.
  - unfold ByFlag.Generate. now rewrite E2.
Qed.

Lemma Entropy_ignores_iteration_order_witness :
  Permutation ByState.fieldNamesAlphabets ByState.fieldNamesAlphabets /\
  Permutation (rev ByState.fieldNamesAlphabets) ByState.fieldNamesAlphabets /\
  Permutation ByFlag.charTypeByFlag ByFlag.charTypeByFlag /\
  Permutation (rev ByFlag.charTypeByFlag) ByFlag.charTypeByFlag /\
  (ByState.Entropy ByState.fieldNamesAlphabets state_overlap
   = ByState.Entropy (rev ByState.fieldNamesAlphabets) state_overlap /\
   ByState.Generate 1024 seeded ByState.fieldNamesAlphabets
     ByState.fieldNamesAlphabets state_overlap 11
   = ByState.Generate 1024 seeded ByState.fieldNamesAlphabets
       (rev ByState.fieldNamesAlphabets) state_overlap 11) /\
  (ByFlag.Entropy ByFlag.charTypeByFlag flag_overlap
   = ByFlag.Entropy (rev ByFlag.charTypeByFlag) flag_overlap /\
   ByFlag.Generate 1024 seeded ByFlag.charTypeByFlag ByFlag.charTypeByFlag
     flag_overlap 11
   = ByFlag.Generate 1024 seeded ByFlag.charTypeByFlag
       (rev ByFlag.charTypeByFlag) flag_overlap 11).
Proof.
  split; [apply Permutation_refl |].
  split; [apply Permutation_sym, Permutation_rev |].
  split; [apply Permutation_refl |].
  split; [apply Permutation_sym, Permutation_rev |].
  apply (Entropy_ignores_iteration_order 1024 seeded 11
           ByState.fieldNamesAlphabets ByState.fieldNamesAlphabets
           (rev ByState.fieldNamesAlphabets) state_overlap
           ByFlag.charTypeByFlag ByFlag.charTypeByFlag
           (rev ByFlag.charTypeByFlag) flag_overlap);
    try apply Permutation_refl; apply Permutation_sym, Permutation_rev.
Defined.

(** ** States and bits the resolver does not know *)

Module DefaultFacts.
Import ByState.

Lemma switch_inclusion_default f s acc :
  (f < 0 \/ 3 < f)%Z -> switch_inclusion f s acc = acc.
Proof.
  intros H. unfold switch_inclusion, CIRequire, CIAllow, CIExclude,
    CIUnstated.
  destruct acc as [ab ex].
  destruct (Z.eqb_spec f 2); [lia |].
  destruct (Z.eqb_spec f 1); [lia |].
  destruct (Z.eqb_spec f 3); [lia |].
  now destruct (Z.eqb_spec f 0).
Qed.

Lemma switch_inclusion_unstated s acc :
  switch_inclusion CIUnstated s acc = acc.
Proof. now destruct acc. Qed.

(** What a lookup finds after a class field was set. *)
Lemma with_field_lookup_any (r : CharRecipe) (fname n : string) f v :
  FieldByName r fname = Some f ->
  FieldByName (with_field r fname v) n = FieldByName r n \/
  (FieldByName r n = Some f /\
   FieldByName (with_field r fname v) n = Some v).
Proof.
  intros H. unfold FieldByName in *.
  destruct (String.eqb_spec fname "Uppers") as [-> | _];
    [| destruct (String.eqb_spec fname "Lowers") as [-> | _];
    [| destruct (String.eqb_spec fname "Digits") as [-> | _];
    [| destruct (String.eqb_spec fname "Symbols") as [-> | _];
    [| destruct (String.eqb_spec fname "Ambiguous") as [-> | _];
    [| discriminate]]]]];
    injection H as H; simpl;
    destruct (String.eqb n "Uppers"); auto;
    destruct (String.eqb n "Lowers"); auto;
    destruct (String.eqb n "Digits"); auto;
    destruct (String.eqb n "Symbols"); auto;
    destruct (String.eqb n "Ambiguous"); auto;
    right; rewrite H; auto.
Qed.

(** Setting a class field to a state the [switch] treats alike leaves the
    two strings of the loop as they were. *)
Lemma with_field_range_alike (r : CharRecipe) (fname : string) f v :
  FieldByName r fname = Some f ->
  (forall s acc, switch_inclusion v s acc = switch_inclusion f s acc) ->
  forall entries acc,
    range_fields (with_field r fname v) entries acc
    = range_fields r entries acc.
Proof.
  intros H Hsw. induction entries as [| [n s] rest IH]; intros acc;
    cbn [range_fields]; [reflexivity |].
  destruct (with_field_lookup_any r fname n f v H) as [E | [E1 E2]].
  - rewrite E. destruct (FieldByName r n); [apply IH | reflexivity].
  - rewrite E1, E2, Hsw. apply IH.
Qed.

End DefaultFacts.

(** X5.  A class whose state is none of the four constants is treated as
    unstated: setting it to [CIUnstated] changes neither the list that
    [buildCharacterList] returns, nor [Entropy], nor the result of
    [Generate], for any iteration orders and any random source. *)
Theorem unknown_state_is_unstated
    (mem : Z) (rnd : Sampler) (s : RandState rnd)
    (o o' : list (string * gostring)) (r : ByState.CharRecipe)
    (fname : string) (f : ByState.CharInclusion) :
  ByState.FieldByName r fname = Some f ->
  (f < 0 \/ 3 < f)%Z ->
  let r' := ByState.with_field r fname ByState.CIUnstated in
  ByState.buildCharacterList o r' = ByState.buildCharacterList o r /\
  ByState.Entropy o r' = ByState.Entropy o r /\
  ByState.Generate mem rnd o o' r' s = ByState.Generate mem rnd o o' r s.
Proof.
  intros Hf Hout r'.
  assert (Hb : forall ord, ByState.buildCharacterList ord r'
                           = ByState.buildCharacterList ord r).
  { intros ord. unfold ByState.buildCharacterList, r'.
    rewrite (DefaultFacts.with_field_range_alike r fname f
               ByState.CIUnstated Hf).
    - reflexivity.
    - intros t acc. rewrite DefaultFacts.switch_inclusion_unstated.
      symmetry. now apply DefaultFacts.switch_inclusion_default. }
  assert (He : forall ord, ByState.Entropy ord r' = ByState.Entropy ord r).
  { intros ord. unfold ByState.Entropy. now rewrite Hb. }
  split; [apply Hb |]. split; [apply He |].
  unfold ByState.Generate. now rewrite Hb, He.
Qed.

Lemma unknown_state_is_unstated_witness :
  ByState.FieldByName state_unknown_uppers "Uppers" = Some 7%Z /\
  (7 < 0 \/ 3 < 7)%Z /\
  let r' :=
    ByState.with_field state_unknown_uppers "Uppers" ByState.CIUnstated in
  ByState.buildCharacterList ByState.fieldNamesAlphabets r'
    = ByState.buildCharacterList ByState.fieldNamesAlphabets
        state_unknown_uppers /\
  ByState.Entropy ByState.fieldNamesAlphabets r'
    = ByState.Entropy ByState.fieldNamesAlphabets state_unknown_uppers /\
  ByState.Generate 1024 seeded ByState.fieldNamesAlphabets
    ByState.fieldNamesAlphabets r' 5
  = ByState.Generate 1024 seeded ByState.fieldNamesAlphabets
      ByState.fieldNamesAlphabets state_unknown_uppers 5.
Proof.
  split; [reflexivity |]. split; [lia |].
  apply (unknown_state_is_unstated 1024 seeded 5
           ByState.fieldNamesAlphabets ByState.fieldNamesAlphabets
           state_unknown_uppers "Uppers" 7%Z); [reflexivity | lia].
Defined.

Module KnownFlagFacts.
Import ByFlag.

(** The test of a character type flag reads the mask below bit 6 only. *)
Lemma has_known (m f : CTFlag) (ct : gostring) :
  In (f, ct) charTypeByFlag -> has m f = has (N.land m known_flags) f.
Proof.
  unfold charTypeByFlag. cbn [In].
  intros [E | [E | [E | [E | [E | [E | []]]]]]]; injection E as <- _;
    unfold Uppers, Lowers, Digits, Symbols, Ambiguous, WhiteSpace;
    rewrite !RequireFacts.has_bit, N.land_spec;
    unfold known_flags; cbn [N.testbit Pos.testbit Pos.pred_N];
    now rewrite andb_true_r.
Qed.

Lemma fold_left_ext_in (A B : Type) (f g : A -> B -> A) (l : list B) :
  (forall e, In e l -> forall a, f a e = g a e) ->
  forall a, fold_left f l a = fold_left g l a.
Proof.
  induction l as [| e t IH]; intros H a; [reflexivity |].
  cbn [fold_left]. rewrite (H e (or_introl eq_refl)).
  apply IH. intros e' He'. apply H. now right.
Qed.

(** Recipes whose masks agree below bit 6 and whose extra strings agree
    leave the same two strings in the loop. *)
Lemma fold_visit_known (r r' : CharRecipe) (order : list (CTFlag * gostring)) :
  (forall e, In e order -> In e charTypeByFlag) ->
  N.land (Allow r) known_flags = N.land (Allow r') known_flags ->
  N.land (Require_ r) known_flags = N.land (Require_ r') known_flags ->
  N.land (Exclude r) known_flags = N.land (Exclude r') known_flags ->
  forall acc,
    fold_left (visit_flag r) order acc = fold_left (visit_flag r') order acc.
Proof.
  intros Hin Ha Hr He. apply fold_left_ext_in.
  intros [f ct] Hf [ab ex]. apply Hin in Hf.
  unfold visit_flag.
  rewrite (has_known (Allow r) f ct Hf), (has_known (Require_ r) f ct Hf),
    (has_known (Exclude r) f ct Hf), Ha, Hr, He.
  now rewrite <- (has_known (Allow r') f ct Hf),
    <- (has_known (Require_ r') f ct Hf),
    <- (has_known (Exclude r') f ct Hf).
Qed.

End KnownFlagFacts.

(** X6.  Only the six character type flags of a mask count: two bit-mask
    recipes with the same length and extra strings whose [Allow], [Require]
    and [Exclude] masks agree on the bits of the six flags resolve the same
    list, have the same entropy and make [Generate] end the same way. *)
Theorem unknown_flag_bits_are_ignored
    (mem : Z) (rnd : Sampler) (s : RandState rnd)
    (o o' : list (ByFlag.CTFlag * gostring)) (r r' : ByFlag.CharRecipe) :
  Permutation o ByFlag.charTypeByFlag ->
  Permutation o' ByFlag.charTypeByFlag ->
  ByFlag.Length r = ByFlag.Length r' ->
  ByFlag.IncludeExtra r = ByFlag.IncludeExtra r' ->
  ByFlag.ExcludeExtra r = ByFlag.ExcludeExtra r' ->
  N.land (ByFlag.Allow r) known_flags
    = N.land (ByFlag.Allow r') known_flags ->
  N.land (ByFlag.Require_ r) known_flags
    = N.land (ByFlag.Require_ r') known_flags ->
  N.land (ByFlag.Exclude r) known_flags
    = N.land (ByFlag.Exclude r') known_flags ->
  ByFlag.buildCharacterList o r = ByFlag.buildCharacterList o r' /\
  ByFlag.Entropy o' r = ByFlag.Entropy o' r' /\
  ByFlag.Generate mem rnd o o' r s = ByFlag.Generate mem rnd o o' r' s.
Proof.
  intros P P' HL Hi Hx Ha Hr He.
  assert (Hb : forall ord, Permutation ord ByFlag.charTypeByFlag ->
                 ByFlag.buildCharacterList ord r
                 = ByFlag.buildCharacterList ord r').
  { intros ord Pord. unfold ByFlag.buildCharacterList.
    rewrite (KnownFlagFacts.fold_visit_known r r' ord); try assumption.
    - now rewrite Hi, Hx.
    - intros e. now apply Permutation_in. }
  assert (Hent : ByFlag.Entropy o' r = ByFlag.Entropy o' r').
  { unfold ByFlag.Entropy. now rewrite (Hb o' P'), HL. }
  split; [now apply Hb |]. split; [exact Hent |].
  unfold ByFlag.Generate. now rewrite (Hb o P), Hent, HL.
Qed.

Lemma unknown_flag_bits_are_ignored_witness :
  Permutation ByFlag.charTypeByFlag ByFlag.charTypeByFlag /\
  ByFlag.Length flag_overlap = ByFlag.Length flag_overlap_high /\
  ByFlag.IncludeExtra flag_overlap = ByFlag.IncludeExtra flag_overlap_high /\
  ByFlag.ExcludeExtra flag_overlap = ByFlag.ExcludeExtra flag_overlap_high /\
  N.land (ByFlag.Allow flag_overlap) known_flags
    = N.land (ByFlag.Allow flag_overlap_high) known_flags /\
  N.land (ByFlag.Require_ flag_overlap) known_flags
    = N.land (ByFlag.Require_ flag_overlap_high) known_flags /\
  N.land (ByFlag.Exclude flag_overlap) known_flags
    = N.land (ByFlag.Exclude flag_overlap_high) known_flags /\
  ByFlag.buildCharacterList ByFlag.charTypeByFlag flag_overlap
    = ByFlag.buildCharacterList ByFlag.charTypeByFlag flag_overlap_high /\
  ByFlag.Entropy ByFlag.charTypeByFlag flag_overlap
    = ByFlag.Entropy ByFlag.charTypeByFlag flag_overlap_high /\
  ByFlag.Generate 1024 seeded ByFlag.charTypeByFlag ByFlag.charTypeByFlag
    flag_overlap 3
  = ByFlag.Generate 1024 seeded ByFlag.charTypeByFlag ByFlag.charTypeByFlag
      flag_overlap_high 3.
Proof.
  split; [apply Permutation_refl |].
  do 6 (split; [reflexivity |]).
  apply (unknown_flag_bits_are_ignored 1024 seeded 3
           ByFlag.charTypeByFlag ByFlag.charTypeByFlag
           flag_overlap flag_overlap_high);
    try apply Permutation_refl; reflexivity.
Defined.

(** ** The default recipes *)

Module NewRecipeFacts.

Lemma state_default_allowed (length : Z) (c : char) :
  ByState.allowed (ByState.NewCharRecipe length) c <->
  In c CTUpper \/ In c CTLower \/ In c CTDigits \/ In c CTSymbols.
Proof.
  rewrite ClassFacts.state_allowed_iff.
  unfold ByState.NewCharRecipe.
  cbn [ByState.Uppers ByState.Lowers ByState.Digits ByState.Symbols
       ByState.Ambiguous].
  unfold ByState.CIAllow, ByState.CIRequire, ByState.CIExclude.
  intuition discriminate.
Qed.

Lemma state_default_excluded (length : Z) (c : char) :
  ByState.excluded (ByState.NewCharRecipe length) c <-> In c CTAmbiguous.
Proof.
  rewrite ClassFacts.state_excluded_iff.
  unfold ByState.NewCharRecipe.
  cbn [ByState.Uppers ByState.Lowers ByState.Digits ByState.Symbols
       ByState.Ambiguous].
  unfold ByState.CIAllow, ByState.CIExclude.
  intuition discriminate.
Qed.

Lemma flag_default_corresponds (length : Z) :
  corresponds (ByState.NewCharRecipe length) (ByFlag.NewCharRecipe length).
Proof. repeat split; reflexivity. Qed.

(** The alphabet of the default recipe, with the map iterated in the order
    of the literal. *)
Lemma state_default_size (length : Z) :
  option_map (@List.length gostring)
    (ByState.buildCharacterList ByState.fieldNamesAlphabets
       (ByState.NewCharRecipe length)) = Some 74%nat.
Proof. vm_compute. reflexivity. Qed.

Lemma flag_default_size (length : Z) :
  List.length
    (ByFlag.buildCharacterList ByFlag.charTypeByFlag
       (ByFlag.NewCharRecipe length)) = 74%nat.
Proof. vm_compute. reflexivity. Qed.

(** The size of the default alphabets, for any order. *)
Lemma state_default_length (length : Z) o chars :
  Permutation o ByState.fieldNamesAlphabets ->
  ByState.buildCharacterList o (ByState.NewCharRecipe length) = Some chars ->
  List.length chars = 74%nat.
Proof.
  intros P E.
  destruct (ByStateGenerate.state_buildCharacterList_length o
              ByState.fieldNamesAlphabets (ByState.NewCharRecipe length)
              chars P (Permutation_refl _) E) as (l & El & Hlen & _).
  pose proof (state_default_size length) as Hs.
  rewrite El in Hs. cbn [option_map] in Hs. injection Hs as Hs.
  now rewrite <- Hlen.
Qed.

Lemma flag_default_length (length : Z) o :
  Permutation o ByFlag.charTypeByFlag ->
  List.length (ByFlag.buildCharacterList o (ByFlag.NewCharRecipe length))
  = 74%nat.
Proof.
  intros P.
  rewrite <- (ByFlagGenerate.flag_buildCharacterList_length
                o ByFlag.charTypeByFlag (ByFlag.NewCharRecipe length)
                P (Permutation_refl _)).
  apply flag_default_size.
Qed.

(** The members of the default alphabets, for any order. *)
Lemma state_default_members (length : Z) o chars :
  Permutation o ByState.fieldNamesAlphabets ->
  ByState.buildCharacterList o (ByState.NewCharRecipe length) = Some chars ->
  forall x, In x chars <->
    exists c, x = [c] /\
      (In c CTUpper \/ In c CTLower \/ In c CTDigits \/ In c CTSymbols) /\
      ~ In c CTAmbiguous.
Proof.
  intros P E x.
  destruct (ByStateFacts.state_buildCharacterList_spec o
              (ByState.NewCharRecipe length) P) as (l & El & _ & Hin).
  rewrite E in El; injection El as <-.
  rewrite Hin. cbn [ByState.NewCharRecipe ByState.IncludeExtra
                    ByState.ExcludeExtra In].
  split.
  - intros (c & Ex & [[] | Ha] & _ & He). exists c. split; [exact Ex |].
    rewrite state_default_allowed in Ha.
    rewrite state_default_excluded in He. tauto.
  - intros (c & Ex & Ha & He). exists c. split; [exact Ex |].
    rewrite state_default_allowed, state_default_excluded. tauto.
Qed.

Lemma flag_default_members (length : Z) o :
  Permutation o ByFlag.charTypeByFlag ->
  forall x,
    In x (ByFlag.buildCharacterList o (ByFlag.NewCharRecipe length)) <->
    exists c, x = [c] /\
      (In c CTUpper \/ In c CTLower \/ In c CTDigits \/ In c CTSymbols) /\
      ~ In c CTAmbiguous.
Proof.
  intros P x.
  destruct (ByFlagFacts.flag_buildCharacterList_spec o
              (ByFlag.NewCharRecipe length) P) as (_ & Hin).
  rewrite Hin. cbn [ByFlag.NewCharRecipe ByFlag.IncludeExtra
                    ByFlag.ExcludeExtra In].
  pose proof (flag_default_corresponds length) as Hc.
  split.
  - intros (c & Ex & [[] | Ha] & _ & He). exists c. split; [exact Ex |].
    rewrite <- (EncodingFacts.corresponds_allowed _ _ c Hc) in Ha.
    rewrite <- (EncodingFacts.corresponds_excluded _ _ c Hc) in He.
    rewrite state_default_allowed in Ha.
    rewrite state_default_excluded in He. tauto.
  - intros (c & Ex & Ha & He). exists c. split; [exact Ex |].
    rewrite <- (EncodingFacts.corresponds_allowed _ _ c Hc).
    rewrite <- (EncodingFacts.corresponds_excluded _ _ c Hc).
    rewrite state_default_allowed, state_default_excluded. tauto.
Qed.

End NewRecipeFacts.

(** X7.  The default recipes of [NewCharRecipe], for every length and every
    iteration order: the resolved alphabet has exactly 74 characters, namely
    the upper-case letters, lower-case letters, digits and symbols that are
    not ambiguous; and the two versions of [NewCharRecipe] resolve the same
    set. *)
Theorem NewCharRecipe_alphabet
    (length : Z)
    (o1 : list (string * gostring)) (o2 : list (ByFlag.CTFlag * gostring)) :
  Permutation o1 ByState.fieldNamesAlphabets ->
  Permutation o2 ByFlag.charTypeByFlag ->
  exists chars,
    ByState.buildCharacterList o1 (ByState.NewCharRecipe length)
      = Some chars /\
    List.length chars = 74%nat /\
    List.length
      (ByFlag.buildCharacterList o2 (ByFlag.NewCharRecipe length))
      = 74%nat /\
    (forall x, In x chars <->
       exists c, x = [c] /\
         (In c CTUpper \/ In c CTLower \/ In c CTDigits \/ In c CTSymbols) /\
         ~ In c CTAmbiguous) /\
    (forall x,
       In x (ByFlag.buildCharacterList o2 (ByFlag.NewCharRecipe length)) <->
       In x chars).
Proof.
  intros P1 P2.
  destruct (ByStateFacts.state_buildCharacterList_spec o1
              (ByState.NewCharRecipe length) P1) as (chars & E & _).
  exists chars. split; [exact E |].
  split; [now apply NewRecipeFacts.state_default_length with length o1 |].
  split; [now apply NewRecipeFacts.flag_default_length |].
  split; [now apply NewRecipeFacts.state_default_members with length o1 |].
  intros x.
  rewrite (NewRecipeFacts.flag_default_members length o2 P2 x).
  symmetry.
  now apply NewRecipeFacts.state_default_members with length o1.
Qed.

Lemma NewCharRecipe_alphabet_witness :
  Permutation (rev ByState.fieldNamesAlphabets) ByState.fieldNamesAlphabets /\
  Permutation (rev ByFlag.charTypeByFlag) ByFlag.charTypeByFlag /\
  exists chars,
    ByState.buildCharacterList (rev ByState.fieldNamesAlphabets)
      (ByState.NewCharRecipe 12) = Some chars /\
    List.length chars = 74%nat /\
    List.length
      (ByFlag.buildCharacterList (rev ByFlag.charTypeByFlag)
         (ByFlag.NewCharRecipe 12)) = 74%nat /\
    (forall x, In x chars <->
       exists c, x = [c] /\
         (In c CTUpper \/ In c CTLower \/ In c CTDigits \/ In c CTSymbols) /\
         ~ In c CTAmbiguous) /\
    (forall x,
       In x (ByFlag.buildCharacterList (rev ByFlag.charTypeByFlag)
               (ByFlag.NewCharRecipe 12)) <->
       In x chars).
Proof.
  split; [apply Permutation_sym, Permutation_rev |].
  split; [apply Permutation_sym, Permutation_rev |].
  apply (NewCharRecipe_alphabet 12 (rev ByState.fieldNamesAlphabets)
           (rev ByFlag.charTypeByFlag));
    apply Permutation_sym, Permutation_rev.
Defined.

(** A password drawn over an alphabet holds only characters of it. *)
Lemma drawn_characters (rnd : Sampler) (s : RandState rnd)
    (chars : list gostring) (len : Z)
    (res : outcome (Password * RandState rnd)) :
  draws_password rnd s chars len res ->
  exists p s', res = Returned (p, s') /\
    List.length (Tokens p) = Z.to_nat len /\
    Entropy p
      = float32 (entropySimple len (Z.of_nat (List.length chars))) /\
    forall c, In c (password_string p) ->
      exists x, In x chars /\ In c x.
Proof.
  intros (p & s' & idxs & Hr & _ & _ & Hl & Hf & He).
  exists p, s'. split; [exact Hr |]. split; [exact Hl |].
  split; [exact He |].
  intros c Hc. apply Join_single_In in Hc. destruct Hc as (t & Ht & Hct).
  rewrite Forall_forall in Hf. destruct (Hf t Ht) as [_ Hv].
  now exists (Value t).
Qed.

(** X8.  Generating from the default recipe: with a sampler that keeps its
    contract and a length from 1 to the longest token slice that [make] can
    allocate, [Generate] applied to [NewCharRecipe length] returns a
    password of exactly [length] tokens that holds none of the ambiguous
    characters and whose entropy is [float32 (entropySimple length 74)], the
    entropy of 74 characters, which is not negative; in both versions. *)
Theorem NewCharRecipe_Generate
    (mem : Z) (rnd : Sampler) (s : RandState rnd) (length : Z)
    (o1 o1' : list (string * gostring))
    (o2 o2' : list (ByFlag.CTFlag * gostring)) :
  sampler_contract rnd ->
  Permutation o1 ByState.fieldNamesAlphabets ->
  Permutation o1' ByState.fieldNamesAlphabets ->
  Permutation o2 ByFlag.charTypeByFlag ->
  Permutation o2' ByFlag.charTypeByFlag ->
  (1 <= length <= max_len mem)%Z ->
  (exists p s',
     ByState.Generate mem rnd o1 o1' (ByState.NewCharRecipe length) s
       = Returned (p, s') /\
     List.length (Tokens p) = Z.to_nat length /\
     (forall c, In c (password_string p) -> ~ In c CTAmbiguous) /\
     Entropy p = float32 (entropySimple length 74) /\
     float_nonneg (Entropy p)) /\
  (exists p s',
     ByFlag.Generate mem rnd o2 o2' (ByFlag.NewCharRecipe length) s
       = Returned (p, s') /\
     List.length (Tokens p) = Z.to_nat length /\
     (forall c, In c (password_string p) -> ~ In c CTAmbiguous) /\
     Entropy p = float32 (entropySimple length 74) /\
     float_nonneg (Entropy p)).
Proof.
  intros C P1 P1' P2 P2' HL.
  assert (Hnn : float_nonneg (float32 (entropySimple length (Z.of_nat 74)))).
  { apply entropySimple_nonneg; lia. }
  split.
  - destruct (ByStateFacts.state_buildCharacterList_spec o1
                (ByState.NewCharRecipe length) P1) as (chars & E & _).
    pose proof (NewRecipeFacts.state_default_length length o1 chars P1 E)
      as Hlen.
    assert (Hne : chars <> []) by (intros ->; discriminate).
    destruct (drawn_characters rnd s chars length _
                (state_Generate_draws mem rnd C o1 o1'
                   (ByState.NewCharRecipe length) chars s P1 P1' HL E Hne))
      as (p & s' & Hr & Hl & He & Hc).
    exists p, s'. split; [exact Hr |]. split; [exact Hl |]. split.
    + intros c Hin. destruct (Hc c Hin) as (x & Hx & Hcx).
      apply (NewRecipeFacts.state_default_members length o1 chars P1 E) in Hx.
      destruct Hx as (d & -> & _ & Hamb).
      destruct Hcx as [<- | []]. exact Hamb.
    + rewrite He, Hlen. split; [reflexivity | exact Hnn].
  - pose proof (NewRecipeFacts.flag_default_length length o2 P2) as Hlen.
    assert (Hne : ByFlag.buildCharacterList o2 (ByFlag.NewCharRecipe length)
                  <> []).
    { intros E. rewrite E in Hlen. discriminate. }
    destruct (drawn_characters rnd s _ length _
                (flag_Generate_draws mem rnd C o2 o2'
                   (ByFlag.NewCharRecipe length) s P2 P2' HL Hne))
      as (p & s' & Hr & Hl & He & Hc).
    exists p, s'. split; [exact Hr |]. split; [exact Hl |]. split.
    + intros c Hin. destruct (Hc c Hin) as (x & Hx & Hcx).
      apply (NewRecipeFacts.flag_default_members length o2 P2) in Hx.
      destruct Hx as (d & -> & _ & Hamb).
      destruct Hcx as [<- | []]. exact Hamb.
    + rewrite He, Hlen. split; [reflexivity | exact Hnn].
Qed.

Lemma NewCharRecipe_Generate_witness :
  sampler_contract seeded /\
  Permutation ByState.fieldNamesAlphabets ByState.fieldNamesAlphabets /\
  Permutation ByFlag.charTypeByFlag ByFlag.charTypeByFlag /\
  (1 <= 12 <= max_len 1024)%Z /\
  (exists p s',
     ByState.Generate 1024 seeded ByState.fieldNamesAlphabets
       ByState.fieldNamesAlphabets (ByState.NewCharRecipe 12) 2026
       = Returned (p, s') /\
     List.length (Tokens p) = Z.to_nat 12 /\
     (forall c, In c (password_string p) -> ~ In c CTAmbiguous) /\
     Entropy p = float32 (entropySimple 12 74) /\
     float_nonneg (Entropy p)) /\
  (exists p s',
     ByFlag.Generate 1024 seeded ByFlag.charTypeByFlag ByFlag.charTypeByFlag
       (ByFlag.NewCharRecipe 12) 2026
       = Returned (p, s') /\
     List.length (Tokens p) = Z.to_nat 12 /\
     (forall c, In c (password_string p) -> ~ In c CTAmbiguous) /\
     Entropy p = float32 (entropySimple 12 74) /\
     float_nonneg (Entropy p)).
Proof.
  assert (Hlen : (1 <= 12 <= max_len 1024)%Z)
    by (vm_compute; split; discriminate).
  split; [exact seeded_contract |].
  split; [apply Permutation_refl |].
  split; [apply Permutation_refl |].
  split; [exact Hlen |].
  apply (NewCharRecipe_Generate 1024 seeded 2026 12
           ByState.fieldNamesAlphabets ByState.fieldNamesAlphabets
           ByFlag.charTypeByFlag ByFlag.charTypeByFlag);
    try apply Permutation_refl; [exact seeded_contract | exact Hlen].
Defined.

(** ** The extra strings *)

Module ExtraFacts.

(** Membership of a character in the resolved alphabet. *)
Lemma state_alphabet_char o (r : ByState.CharRecipe) chars (c : char) :
  Permutation o ByState.fieldNamesAlphabets ->
  ByState.buildCharacterList o r = Some chars ->
  In [c] chars <->
  (In c (ByState.IncludeExtra r) \/ ByState.allowed r c) /\
  ~ In c (ByState.ExcludeExtra r) /\ ~ ByState.excluded r c.
Proof.
  intros P E.
  destruct (ByStateFacts.state_buildCharacterList_spec o r P)
    as (l & El & _ & Hin).
  rewrite E in El; injection El as <-.
  rewrite Hin. split.
  - intros (d & Ed & H). now injection Ed as ->.
  - intros H. now exists c.
Qed.

Lemma exclude_more_allowed r e c :
  ByState.allowed (state_exclude_more r e) c <-> ByState.allowed r c.
Proof. reflexivity. Qed.

Lemma exclude_more_excluded r e c :
  ByState.excluded (state_exclude_more r e) c <-> ByState.excluded r c.
Proof. reflexivity. Qed.

Lemma include_more_allowed r e c :
  ByState.allowed (state_include_more r e) c <-> ByState.allowed r c.
Proof. reflexivity. Qed.

Lemma include_more_excluded r e c :
  ByState.excluded (state_include_more r e) c <-> ByState.excluded r c.
Proof. reflexivity. Qed.

End ExtraFacts.

(** X9.  The extra strings act character by character.  Appending [e] to
    [ExcludeExtra] removes from the resolved alphabet exactly the characters
    of [e]; appending [e] to [IncludeExtra] adds exactly those characters of
    [e] that are neither in [ExcludeExtra] nor in a class in state Exclude;
    whatever the iteration orders. *)
Theorem extra_strings_act_per_character
    (o o' : list (string * gostring)) (r : ByState.CharRecipe)
    (e : gostring) :
  Permutation o ByState.fieldNamesAlphabets ->
  Permutation o' ByState.fieldNamesAlphabets ->
  exists chars chars_x chars_i,
    ByState.buildCharacterList o r = Some chars /\
    ByState.buildCharacterList o' (state_exclude_more r e) = Some chars_x /\
    ByState.buildCharacterList o' (state_include_more r e) = Some chars_i /\
    (forall c, In [c] chars_x <-> In [c] chars /\ ~ In c e) /\
    (forall c, In [c] chars_i <->
       In [c] chars \/
       (In c e /\ ~ In c (ByState.ExcludeExtra r) /\
        ~ ByState.excluded r c)).
Proof.
  intros P P'.
  destruct (ByStateFacts.state_buildCharacterList_spec o r P)
    as (chars & E & _).
  destruct (ByStateFacts.state_buildCharacterList_spec o'
              (state_exclude_more r e) P') as (chars_x & Ex & _).
  destruct (ByStateFacts.state_buildCharacterList_spec o'
              (state_include_more r e) P') as (chars_i & Ei & _).
  exists chars, chars_x, chars_i.
  split; [exact E |]. split; [exact Ex |]. split; [exact Ei |].
  split; intros c.
  - rewrite (ExtraFacts.state_alphabet_char o' _ chars_x c P' Ex),
      (ExtraFacts.state_alphabet_char o r chars c P E),
      ExtraFacts.exclude_more_allowed, ExtraFacts.exclude_more_excluded.
    cbn [state_exclude_more ByState.IncludeExtra ByState.ExcludeExtra].
    rewrite in_app_iff. tauto.
  - rewrite (ExtraFacts.state_alphabet_char o' _ chars_i c P' Ei),
      (ExtraFacts.state_alphabet_char o r chars c P E),
      ExtraFacts.include_more_allowed, ExtraFacts.include_more_excluded.
    cbn [state_include_more ByState.IncludeExtra ByState.ExcludeExtra].
    rewrite in_app_iff. tauto.
Qed.

Lemma extra_strings_act_per_character_witness :
  Permutation ByState.fieldNamesAlphabets ByState.fieldNamesAlphabets /\
  Permutation (rev ByState.fieldNamesAlphabets) ByState.fieldNamesAlphabets /\
  exists chars chars_x chars_i,
    ByState.buildCharacterList ByState.fieldNamesAlphabets state_overlap
      = Some chars /\
    ByState.buildCharacterList (rev ByState.fieldNamesAlphabets)
      (state_exclude_more state_overlap (lit "AB!")) = Some chars_x /\
    ByState.buildCharacterList (rev ByState.fieldNamesAlphabets)
      (state_include_more state_overlap (lit "AB!")) = Some chars_i /\
    (forall c, In [c] chars_x <-> In [c] chars /\ ~ In c (lit "AB!")) /\
    (forall c, In [c] chars_i <->
       In [c] chars \/
       (In c (lit "AB!") /\ ~ In c (ByState.ExcludeExtra state_overlap) /\
        ~ ByState.excluded state_overlap c)).
Proof.
  split; [apply Permutation_refl |].
  split; [apply Permutation_sym, Permutation_rev |].
  apply (extra_strings_act_per_character ByState.fieldNamesAlphabets
           (rev ByState.fieldNamesAlphabets) state_overlap (lit "AB!")).
  - apply Permutation_refl.
  - apply Permutation_sym, Permutation_rev.
Defined.

(** ** Recipes that state no class *)

Module InertFacts.

Lemma switch_inclusion_inert f s acc :
  f <> ByState.CIAllow -> f <> ByState.CIRequire ->
  f <> ByState.CIExclude ->
  ByState.switch_inclusion f s acc = acc.
Proof.
  unfold ByState.switch_inclusion, ByState.CIRequire, ByState.CIAllow,
    ByState.CIExclude, ByState.CIUnstated.
  intros H1 H2 H3. destruct acc as [ab ex].
  destruct (Z.eqb_spec f 2); [contradiction |].
  destruct (Z.eqb_spec f 1); [contradiction |].
  destruct (Z.eqb_spec f 3); [contradiction |].
  now destruct (Z.eqb_spec f 0).
Qed.

(** The loop over fields that are all inert leaves its two strings
    untouched. *)
Lemma range_fields_inert (r : ByState.CharRecipe) entries :
  (forall fname s, In (fname, s) entries ->
     exists f, ByState.FieldByName r fname = Some f /\
       f <> ByState.CIAllow /\ f <> ByState.CIRequire /\
       f <> ByState.CIExclude) ->
  forall acc, ByState.range_fields r entries acc = Some acc.
Proof.
  induction entries as [| [n s] rest IH]; intros H acc;
    cbn [ByState.range_fields]; [reflexivity |].
  destruct (H n s (or_introl eq_refl)) as (f & Ef & H1 & H2 & H3).
  rewrite Ef, (switch_inclusion_inert f s acc H1 H2 H3).
  apply IH. intros n' s' Hin. apply (H n' s'). now right.
Qed.

Lemma fold_visit_flag_inert (r : ByFlag.CharRecipe) entries :
  (forall f ct, In (f, ct) entries ->
     ByFlag.has (ByFlag.Allow r) f = false /\
     ByFlag.has (ByFlag.Require_ r) f = false /\
     ByFlag.has (ByFlag.Exclude r) f = false) ->
  forall acc, fold_left (ByFlag.visit_flag r) entries acc = acc.
Proof.
  induction entries as [| [f ct] rest IH]; intros H acc;
    cbn [fold_left]; [reflexivity |].
  destruct (H f ct (or_introl eq_refl)) as (Ha & Hr & He).
  destruct acc as [ab ex]. unfold ByFlag.visit_flag at 2.
  rewrite Ha, Hr, He. apply IH.
  intros f' ct' Hin. apply (H f' ct'). now right.
Qed.

End InertFacts.

(** X10.  A recipe that allows, requires and excludes no class resolves to
    the distinct characters of [IncludeExtra] that are not in
    [ExcludeExtra]: [buildCharacterList] returns the split of
    [subtractString IncludeExtra ExcludeExtra], the same list for every
    iteration order; in both encodings. *)
Theorem no_class_stated_alphabet
    (o1 : list (string * gostring)) (r1 : ByState.CharRecipe)
    (o2 : list (ByFlag.CTFlag * gostring)) (r2 : ByFlag.CharRecipe) :
  Permutation o1 ByState.fieldNamesAlphabets ->
  Permutation o2 ByFlag.charTypeByFlag ->
  (forall fname s, In (fname, s) ByState.fieldNamesAlphabets ->
     exists f, ByState.FieldByName r1 fname = Some f /\
       f <> ByState.CIAllow /\ f <> ByState.CIRequire /\
       f <> ByState.CIExclude) ->
  N.land (ByFlag.Allow r2) known_flags = 0 ->
  N.land (ByFlag.Require_ r2) known_flags = 0 ->
  N.land (ByFlag.Exclude r2) known_flags = 0 ->
  ByState.buildCharacterList o1 r1
    = Some (Split (subtractString (ByState.IncludeExtra r1)
                     (ByState.ExcludeExtra r1))) /\
  ByFlag.buildCharacterList o2 r2
    = Split (subtractString (ByFlag.IncludeExtra r2)
               (ByFlag.ExcludeExtra r2)).
Proof.
  intros P1 P2 H1 Ha Hr He. split.
  - unfold ByState.buildCharacterList.
    rewrite InertFacts.range_fields_inert; [reflexivity |].
    intros n s Hin. apply (H1 n s).
    now apply (Permutation_in _ P1).
  - unfold ByFlag.buildCharacterList.
    rewrite InertFacts.fold_visit_flag_inert; [reflexivity |].
    intros f ct Hin. apply (Permutation_in _ P2) in Hin.
    rewrite (KnownFlagFacts.has_known (ByFlag.Allow r2) f ct Hin),
      (KnownFlagFacts.has_known (ByFlag.Require_ r2) f ct Hin),
      (KnownFlagFacts.has_known (ByFlag.Exclude r2) f ct Hin), Ha, Hr, He.
    rewrite (has_zero f ct Hin). now repeat split.
Qed.

Lemma no_class_stated_alphabet_witness :
  Permutation (rev ByState.fieldNamesAlphabets) ByState.fieldNamesAlphabets /\
  Permutation (rev ByFlag.charTypeByFlag) ByFlag.charTypeByFlag /\
  (forall fname s, In (fname, s) ByState.fieldNamesAlphabets ->
     exists f, ByState.FieldByName state_negative fname = Some f /\
       f <> ByState.CIAllow /\ f <> ByState.CIRequire /\
       f <> ByState.CIExclude) /\
  N.land (ByFlag.Allow flag_euro) known_flags = 0 /\
  N.land (ByFlag.Require_ flag_euro) known_flags = 0 /\
  N.land (ByFlag.Exclude flag_euro) known_flags = 0 /\
  ByState.buildCharacterList (rev ByState.fieldNamesAlphabets) state_negative
    = Some (Split (subtractString (ByState.IncludeExtra state_negative)
                     (ByState.ExcludeExtra state_negative))) /\
  ByFlag.buildCharacterList (rev ByFlag.charTypeByFlag) flag_euro
    = Split (subtractString (ByFlag.IncludeExtra flag_euro)
               (ByFlag.ExcludeExtra flag_euro)).
Proof.
  assert (Hinert : forall fname s,
            In (fname, s) ByState.fieldNamesAlphabets ->
            exists f, ByState.FieldByName state_negative fname = Some f /\
              f <> ByState.CIAllow /\ f <> ByState.CIRequire /\
              f <> ByState.CIExclude).
  { intros n t Hin. unfold ByState.fieldNamesAlphabets in Hin.
    cbn [In] in Hin.
    destruct Hin as [E | [E | [E | [E | [E | []]]]]]; injection E as <- _;
      exists 0%Z; repeat split; discriminate. }
  split; [apply Permutation_sym, Permutation_rev |].
  split; [apply Permutation_sym, Permutation_rev |].
  split; [exact Hinert |].
  do 3 (split; [reflexivity |]).
  apply (no_class_stated_alphabet (rev ByState.fieldNamesAlphabets)
           state_negative (rev ByFlag.charTypeByFlag) flag_euro);
    try (apply Permutation_sym, Permutation_rev); try reflexivity.
  exact Hinert.
Defined.

(** ** A bound on the size of the alphabet *)

Module SizeFacts.

Lemma ambiguous_in_class_chars (c : char) :
  In c CTAmbiguous -> In c class_chars.
Proof.
  assert (H : forallb (contains class_chars) CTAmbiguous = true)
    by (vm_compute; reflexivity).
  rewrite forallb_forall in H. intros Hc. now apply contains_In, H.
Qed.

Lemma state_allowed_in_class_chars (r : ByState.CharRecipe) (c : char) :
  ByState.allowed r c -> In c class_chars.
Proof.
  rewrite ClassFacts.state_allowed_iff. unfold class_chars.
  rewrite !in_app_iff.
  intros [[_ H] | [[_ H] | [[_ H] | [[_ H] | [_ H]]]]]; try tauto.
  apply ambiguous_in_class_chars in H. unfold class_chars in H.
  now rewrite !in_app_iff in H.
Qed.

Lemma flag_allowed_in_class_chars (r : ByFlag.CharRecipe) (c : char) :
  ByFlag.allowed r c -> In c (class_chars ++ CTWhiteSpace).
Proof.
  intros H. apply ClassFacts.flag_allowed_iff in H.
  unfold class_chars. rewrite !in_app_iff.
  destruct H as [[_ H] | [[_ H] | [[_ H] | [[_ H] | [[_ H] | [_ H]]]]]];
    try tauto.
  apply ambiguous_in_class_chars in H. unfold class_chars in H.
  rewrite !in_app_iff in H. tauto.
Qed.

Lemma class_chars_length : List.length class_chars = 81%nat.
Proof. vm_compute. reflexivity. Qed.

End SizeFacts.

(** X11.  The resolved alphabet is never larger than [IncludeExtra] plus the
    characters of the classes: at most [len(IncludeExtra) + 81] entries for
    the per-class-state recipe and [len(IncludeExtra) + 83] for the bit-mask
    recipe, which also knows the two white-space characters. *)
Theorem alphabet_size_bound
    (o1 : list (string * gostring)) (r1 : ByState.CharRecipe)
    (o2 : list (ByFlag.CTFlag * gostring)) (r2 : ByFlag.CharRecipe) :
  Permutation o1 ByState.fieldNamesAlphabets ->
  Permutation o2 ByFlag.charTypeByFlag ->
  (exists chars, ByState.buildCharacterList o1 r1 = Some chars /\
     (List.length chars
      <= List.length (ByState.IncludeExtra r1) + 81)%nat) /\
  (List.length (ByFlag.buildCharacterList o2 r2)
   <= List.length (ByFlag.IncludeExtra r2) + 83)%nat.
Proof.
  intros P1 P2. split.
  - destruct (ByStateFacts.state_buildCharacterList_spec o1 r1 P1)
      as (chars & E & Hnd & Hin).
    exists chars. split; [exact E |].
    assert (Hincl : incl chars
              (Split (ByState.IncludeExtra r1 ++ class_chars))).
    { intros x Hx. apply Hin in Hx. destruct Hx as (c & -> & Hc & _).
      apply Split_In_char. rewrite in_app_iff.
      destruct Hc as [Hc | Hc]; [now left | right].
      now apply SizeFacts.state_allowed_in_class_chars with r1. }
    pose proof (NoDup_incl_length Hnd Hincl) as H.
    rewrite Split_length, length_app, SizeFacts.class_chars_length in H.
    exact H.
  - destruct (ByFlagFacts.flag_buildCharacterList_spec o2 r2 P2)
      as (Hnd & Hin).
    assert (Hincl : incl (ByFlag.buildCharacterList o2 r2)
              (Split (ByFlag.IncludeExtra r2 ++
                      (class_chars ++ CTWhiteSpace)))).
    { intros x Hx. apply Hin in Hx. destruct Hx as (c & -> & Hc & _).
      apply Split_In_char. rewrite in_app_iff.
      destruct Hc as [Hc | Hc]; [now left | right].
      now apply SizeFacts.flag_allowed_in_class_chars with r2. }
    pose proof (NoDup_incl_length Hnd Hincl) as H.
    rewrite Split_length, !length_app, SizeFacts.class_chars_length in H.
    exact H.
Qed.

Lemma alphabet_size_bound_witness :
  Permutation ByState.fieldNamesAlphabets ByState.fieldNamesAlphabets /\
  Permutation ByFlag.charTypeByFlag ByFlag.charTypeByFlag /\
  (exists chars,
     ByState.buildCharacterList ByState.fieldNamesAlphabets state_overlap
       = Some chars /\
     (List.length chars
      <= List.length (ByState.IncludeExtra state_overlap) + 81)%nat) /\
  (List.length (ByFlag.buildCharacterList ByFlag.charTypeByFlag flag_overlap)
   <= List.length (ByFlag.IncludeExtra flag_overlap) + 83)%nat.
Proof.
  split; [apply Permutation_refl |].
  split; [apply Permutation_refl |].
  apply (alphabet_size_bound ByState.fieldNamesAlphabets state_overlap
           ByFlag.charTypeByFlag flag_overlap); apply Permutation_refl.
Defined.

(** ** The field names and the struct stay in sync *)

(** X12.  Every name in [fieldNamesAlphabets] is a [CharInclusion] field of
    [CharRecipe], so the lookups by reflection never panic:
    [buildCharacterList] and [Entropy] return for every recipe and every
    iteration order.  A name that is no such field would make the lookup,
    and with it [buildCharacterList], panic, wherever it stood in the
    iteration. *)
Theorem field_names_in_sync
    (o : list (string * gostring)) (r : ByState.CharRecipe)
    (pre post : list (string * gostring)) (fname : string) (s : gostring) :
  Permutation o ByState.fieldNamesAlphabets ->
  ~ In fname (map fst ByState.fieldNamesAlphabets) ->
  (exists chars, ByState.buildCharacterList o r = Some chars) /\
  (exists e, ByState.Entropy o r = Some e) /\
  ByState.FieldByName r fname = None /\
  ByState.buildCharacterList (pre ++ (fname, s) :: post) r = None.
Proof.
  intros P Hnot.
  destruct (ByStateFacts.state_buildCharacterList_spec o r P)
    as (chars & E & _).
  assert (Hnone : ByState.FieldByName r fname = None).
  { unfold ByState.FieldByName. cbn [map fst ByState.fieldNamesAlphabets In]
      in Hnot.
    destruct (String.eqb_spec fname "Uppers") as [-> | _];
      [exfalso; apply Hnot; intuition |].
    destruct (String.eqb_spec fname "Lowers") as [-> | _];
      [exfalso; apply Hnot; intuition |].
    destruct (String.eqb_spec fname "Digits") as [-> | _];
      [exfalso; apply Hnot; intuition |].
    destruct (String.eqb_spec fname "Symbols") as [-> | _];
      [exfalso; apply Hnot; intuition |].
    destruct (String.eqb_spec fname "Ambiguous") as [-> | _];
      [exfalso; apply Hnot; intuition | reflexivity]. }
  split; [now exists chars |].
  split; [rewrite (state_Entropy_eq o r chars E); eauto |].
  split; [exact Hnone |].
  unfold ByState.buildCharacterList.
  generalize (ByState.IncludeExtra r, ByState.ExcludeExtra r).
  induction pre as [| [n t] rest IH]; intros acc.
  - cbn [app ByState.range_fields]. now rewrite Hnone.
  - cbn [app ByState.range_fields].
    destruct (ByState.FieldByName r n) as [f |] eqn:Ef; [| reflexivity].
    apply IH.
Qed.

Lemma field_names_in_sync_witness :
  Permutation (rev ByState.fieldNamesAlphabets) ByState.fieldNamesAlphabets /\
  ~ In "WhiteSpace"%string (map fst ByState.fieldNamesAlphabets) /\
  (exists chars,
     ByState.buildCharacterList (rev ByState.fieldNamesAlphabets)
       state_overlap = Some chars) /\
  (exists e,
     ByState.Entropy (rev ByState.fieldNamesAlphabets) state_overlap
     = Some e) /\
  ByState.FieldByName state_overlap "WhiteSpace" = None /\
  ByState.buildCharacterList
    ([("Digits"%string, CTDigits)] ++
     ("WhiteSpace"%string, CTWhiteSpace) :: [("Uppers"%string, CTUpper)])
    state_overlap = None.
Proof.
  assert (Hnot : ~ In "WhiteSpace"%string
                   (map fst ByState.fieldNamesAlphabets)).
  { cbn [map fst ByState.fieldNamesAlphabets In].
    intros [E | [E | [E | [E | [E | []]]]]]; discriminate. }
  split; [apply Permutation_sym, Permutation_rev |].
  split; [exact Hnot |].
  apply (field_names_in_sync (rev ByState.fieldNamesAlphabets) state_overlap
           [("Digits"%string, CTDigits)] [("Uppers"%string, CTUpper)]
           "WhiteSpace" CTWhiteSpace).
  - apply Permutation_sym, Permutation_rev.
  - exact Hnot.
Defined.
